(** * recast-navigation-core: the navigation-mesh query wrapper

    A shallow embedding of [nav-mesh-query.ts] of the package
    [recast-navigation-core] (the classes [QueryFilter] and
    [NavMeshQuery]) over an explicit interface for the native
    module it drives, followed by a model of that native query engine written
    from the specification, and the properties of both. *)

From Stdlib Require Import ZArith Lia Bool.
From Stdlib Require Floats.SpecFloat.
From stdpp Require Import base option list gmap strings.

Local Open Scope Z_scope.

(** ** Numbers

    The wrapper moves floating-point values between the caller and the native
    module and never computes with them; they are kept abstract.  The model of
    the native engine needs an order and an addition on path costs. *)

Class NumOps (num : Type) := {
  num_zero : num;
  num_one : num;
  num_add : num -> num -> num;
  num_mul : num -> num -> num;
  num_ltb : num -> num -> bool;
}.

(** A number handed to the native module as a C++ [float] is kept as the
    nearest 32-bit float.  [num_bits32 v] is the bit pattern of that float (a
    32-bit unsigned integer) and [num_of_bits32 b] the number that a float
    with the bit pattern [b] reads as. *)
Class NumBits (num : Type) := {
  num_bits32 : num -> Z;
  num_of_bits32 : Z -> num;
}.

(** [Math.fround]: what a number reads as once it was stored in a float. *)
Definition num_fround {num : Type} `{NumBits num} (v : num) : num :=
  num_of_bits32 (num_bits32 v).

Section Wrapper.

Context {num : Type} {NO : NumOps num} {NB : NumBits num}.

(** ** utils.ts *)

Record Vector3 := { x : num; y : num; z : num }.

(** Modelled from the spec: the helpers [vec3.toArray], [vec3.fromRaw] and
    [array] of [utils.ts], which is not part of the sources at hand.  They
    are used in [nav-mesh-query.ts] and in the tile accessors as conversions
    between [{x, y, z}] objects, three-element arrays, and as
    "collect [getter(0..count-1)]". *)
Definition vec3_toArray (v : Vector3) : list num := [x v; y v; z v].

Definition vec3_fromRaw (v : Vector3) : Vector3 :=
  {| x := x v; y := y v; z := z v |}.

Definition array {T : Type} (getter : nat -> T) (count : nat) : list T :=
  map getter (seq 0 count).

(** ** raw.ts: arrays and the filter object of the native module *)

(** Modelled from the spec: the buffers [Arrays.UnsignedIntArray] and
    [Arrays.FloatArray] of [raw.ts], which is not part of the sources at
    hand; "caller-bounded" output arrays with [resize], [get] and [size].  A
    new slot and a read past the end yield the element type's zero. *)
Definition resize {T : Type} (zero : T) (n : nat) (a : list T) : list T :=
  take n a ++ replicate (n - length a) zero.

Definition get {T : Type} (zero : T) (a : list T) (i : nat) : T :=
  nth i a zero.

(** Modelled from the spec: the native [dtQueryFilter] value object, absent
    from the sources.  "include-flags and exclude-flags bitmasks ..., and a
    cost-per-area-id table (default 1.0)"; "one slot per area id, id range
    fixed by the format, e.g. 0-63".  The object is the 64 floats of the
    table followed by the two masks, each a 16-bit unsigned integer.  Where
    the spec has the engine validate the area id, the native accessors index
    the table with the id as it is handed to them: slot 64 is the four bytes
    of the two masks (the include flags in the low half), and a slot below 0
    or above 64 lies outside the object.  [m_areaCost] is what the float
    accessors find in each slot other than 64; what a write outside the
    object does to whatever else lives there is not modelled. *)
Record dtQueryFilter := {
  m_includeFlags : Z;
  m_excludeFlags : Z;
  m_areaCost : Z -> num;
}.

Definition DT_MAX_AREAS : Z := 64.

(** A C++ [unsigned short] keeps the low 16 bits of what it is assigned. *)
Definition toUnsignedShort (v : Z) : Z := v mod 2 ^ 16.

Definition dtQueryFilter_getAreaCost (i : Z) (f : dtQueryFilter) : num :=
  if i =? DT_MAX_AREAS
  then num_of_bits32 (m_includeFlags f + 2 ^ 16 * m_excludeFlags f)
  else m_areaCost f i.

Definition dtQueryFilter_setAreaCost (i : Z) (cost : num) (f : dtQueryFilter)
  : dtQueryFilter :=
  if i =? DT_MAX_AREAS
  then {| m_includeFlags := toUnsignedShort (num_bits32 cost);
          m_excludeFlags := toUnsignedShort (num_bits32 cost / 2 ^ 16);
          m_areaCost := m_areaCost f |}
  else {| m_includeFlags := m_includeFlags f;
          m_excludeFlags := m_excludeFlags f;
          m_areaCost := fun j => if j =? i then num_fround cost
                                 else m_areaCost f j |}.

Definition dtQueryFilter_setIncludeFlags (flags : Z) (f : dtQueryFilter)
  : dtQueryFilter :=
  {| m_includeFlags := toUnsignedShort flags;
     m_excludeFlags := m_excludeFlags f;
     m_areaCost := m_areaCost f |}.

Definition dtQueryFilter_setExcludeFlags (flags : Z) (f : dtQueryFilter)
  : dtQueryFilter :=
  {| m_includeFlags := m_includeFlags f;
     m_excludeFlags := toUnsignedShort flags;
     m_areaCost := m_areaCost f |}.

(** Modelled from the spec: "a polygon is passable iff
    [(poly.flags & include) != 0 && (poly.flags & exclude) == 0]". *)
Definition passFilter (f : dtQueryFilter) (polyFlags : Z) : bool :=
  negb (Z.land polyFlags (m_includeFlags f) =? 0)
  && (Z.land polyFlags (m_excludeFlags f) =? 0).

(** ** The native module, as the wrapper sees it

    [raw-module] is absent; this is its interface as used by
    [nav-mesh-query.ts].  Out-parameters ([UnsignedIntRef], [Vec3], [BoolRef],
    [IntRef], [FloatRef], the result arrays) are created by the wrapper just
    before the call and read just after it, so each operation is a function
    from its inputs and the state of the native query object to the status,
    the values left in the out-parameters, and the new state.  The filter is
    handed over read-only ("the engine never mutates a filter it receives"). *)
Record RawModule := {
  dtStatus : Type;
  NavMeshRaw : Type;
  Eng : Type;
  statusSucceed : dtStatus -> bool;
  raw_new : Eng;
  raw_init : NavMeshRaw -> nat -> Eng -> Eng;
  raw_newFilter : dtQueryFilter;
  raw_findNearestPoly :
    list num -> list num -> dtQueryFilter -> Eng ->
    (dtStatus * Z * Vector3 * bool) * Eng;
  raw_findPolysAroundCircle :
    Z -> list num -> num -> dtQueryFilter -> list Z -> list Z -> nat -> Eng ->
    (dtStatus * list Z * list Z * num * nat) * Eng;
  raw_queryPolygons :
    list num -> list num -> dtQueryFilter -> list Z -> nat -> Eng ->
    (dtStatus * list Z * nat) * Eng;
  raw_closestPointOnPoly :
    Z -> list num -> Eng -> (dtStatus * Vector3 * bool) * Eng;
  raw_getClosestPoint :
    list num -> list num -> dtQueryFilter -> Eng -> Vector3 * Eng;
  raw_getRandomPointAround :
    list num -> num -> list num -> dtQueryFilter -> Eng -> Vector3 * Eng;
  raw_moveAlongSurface :
    Z -> list num -> list num -> dtQueryFilter -> list Z -> nat -> Eng ->
    (dtStatus * Vector3 * list Z) * Eng;
  raw_findRandomPoint :
    dtQueryFilter -> Eng -> (dtStatus * Z * Vector3) * Eng;
  raw_getPolyHeight :
    Z -> list num -> Eng -> (dtStatus * num) * Eng;
  raw_findPath :
    Z -> Z -> list num -> list num -> dtQueryFilter -> list Z -> nat -> Eng ->
    (dtStatus * list Z) * Eng;
  raw_findStraightPath :
    list num -> list num -> list Z -> list num -> list Z -> list Z -> nat ->
    Z -> Eng -> (dtStatus * list num * list Z * list Z * nat) * Eng;
}.

Context (R : RawModule).

(** The native calls a wrapper method makes, in order, with the arguments it
    passes (the filter by the handle of the object passed). *)
Inductive RawCall :=
| CallFindNearestPoly (center halfExtents : list num) (filter : nat)
| CallFindPolysAroundCircle (startRef : Z) (centerPos : list num)
    (radius : num) (filter : nat) (maxPolys : nat)
| CallQueryPolygons (center halfExtents : list num) (filter : nat)
    (maxPolys : nat)
| CallClosestPointOnPoly (polyRef : Z) (position : list num)
| CallGetClosestPoint (position halfExtents : list num) (filter : nat)
| CallGetRandomPointAround (position : list num) (radius : num)
    (halfExtents : list num) (filter : nat)
| CallMoveAlongSurface (startRef : Z) (startPosition endPosition : list num)
    (filter : nat) (maxVisitedSize : nat)
| CallFindRandomPoint (filter : nat)
| CallGetPolyHeight (polyRef : Z) (position : list num)
| CallFindPath (startRef endRef : Z) (startPosition endPosition : list num)
    (filter : nat) (maxPath : nat)
| CallFindStraightPath (start end_ : list num) (path : list Z)
    (maxStraightPath : nat) (options : Z).

(** ** The world of the wrapper

    Filter objects live in the native heap and are shared by reference
    between the caller and the query object; the native query object carries
    scratch state; [calls] records the native query calls made so far. *)
Record World := {
  filters : gmap nat dtQueryFilter;
  engine : Eng R;
  calls : list RawCall;
}.

Definition M (A : Type) : Type := World -> A * World.

#[global] Instance M_ret : MRet M := fun A a w => (a, w).
#[global] Instance M_bind : MBind M :=
  fun A B k m w => let '(a, w') := m w in k a w'.

Definition run {A} (m : M A) (w : World) : A := fst (m w).
Definition exec {A} (m : M A) (w : World) : World := snd (m w).

(** [new Raw.Module.dtQueryFilter()] *)
Definition newRawFilter : M nat := fun w =>
  let h := fresh (dom (filters w)) in
  (h, {| filters := <[h := raw_newFilter R]> (filters w);
         engine := engine w; calls := calls w |}).

Definition filterAt (w : World) (h : nat) : dtQueryFilter :=
  default (raw_newFilter R) (filters w !! h).

Definition readFilter (h : nat) : M dtQueryFilter := fun w => (filterAt w h, w).

Definition updateFilter (h : nat) (f : dtQueryFilter -> dtQueryFilter)
  : M unit := fun w =>
  (tt, {| filters := <[h := f (filterAt w h)]> (filters w);
          engine := engine w; calls := calls w |}).

(** A call [this.raw.op(...)] on the native query object. *)
Definition native {A} (c : RawCall) (op : Eng R -> A * Eng R) : M A := fun w =>
  let '(a, e) := op (engine w) in
  (a, {| filters := filters w; engine := e; calls := calls w ++ [c] |}).

(** ** class QueryFilter *)

Record QueryFilter := { raw : nat }.

Definition QueryFilter_new (r : option nat) : M QueryFilter :=
  match r with
  | Some h => mret {| raw := h |}
  | None => h ← newRawFilter; mret {| raw := h |}
  end.

Definition get_includeFlags (f : QueryFilter) : M Z :=
  flt ← readFilter (raw f); mret (m_includeFlags flt).

Definition set_includeFlags (f : QueryFilter) (flags : Z) : M unit :=
  updateFilter (raw f) (dtQueryFilter_setIncludeFlags flags).

Definition get_excludeFlags (f : QueryFilter) : M Z :=
  flt ← readFilter (raw f); mret (m_excludeFlags flt).

Definition set_excludeFlags (f : QueryFilter) (flags : Z) : M unit :=
  updateFilter (raw f) (dtQueryFilter_setExcludeFlags flags).

Definition getAreaCost (f : QueryFilter) (i : Z) : M num :=
  flt ← readFilter (raw f); mret (dtQueryFilter_getAreaCost i flt).

Definition setAreaCost (f : QueryFilter) (i : Z) (cost : num) : M unit :=
  updateFilter (raw f) (dtQueryFilter_setAreaCost i cost).

(** ** class NavMeshQuery *)

(** Every result object carries [success] and [status] next to the values
    read back from the out-parameters. *)
Record Result (P : Type) := {
  success : bool;
  status : dtStatus R;
  payload : P;
}.
Arguments success {P} _.
Arguments status {P} _.
Arguments payload {P} _.

Definition result {P} (st : dtStatus R) (p : P) : Result P :=
  {| success := statusSucceed R st; status := st; payload := p |}.

Record NearestPoly := {
  nearestRef : Z;
  nearestPoint : Vector3;
  isOverPoly : bool;
}.

Record PolysAroundCircle := {
  resultRefs : list Z;
  resultParents : list Z;
  resultCost : num;
  resultCount : nat;
}.

Record Polygons := { polyRefs : list Z; polyCount : nat }.

Record ClosestPoint := { closestPoint : Vector3; posOverPoly : bool }.

Record SurfaceMove := { resultPosition : Vector3; visited : list Z }.

Record RandomPoint := { randomPolyRef : Z; randomPoint : Vector3 }.

Record PolyHeight := { height : num }.

Record PolyPath := { polys : list Z }.

Record StraightPath := {
  straightPath : list num;
  straightPathFlags : list Z;
  straightPathRefs : list Z;
  straightPathCount : nat;
}.

Record PathError := { name : string; error_status : option (dtStatus R) }.

Record ComputedPath := {
  computed : bool;
  error : option PathError;
  path : list Vector3;
}.

(** The [options] objects; every field is optional. *)
Record SearchOptions := {
  so_filter : option QueryFilter;
  so_halfExtents : option Vector3;
}.

Record BoundedOptions := {
  bo_filter : option QueryFilter;
  bo_max : option nat;
}.

Record FilterOptions := { fo_filter : option QueryFilter }.

Record ComputePathOptions := {
  cp_filter : option QueryFilter;
  cp_maxPathPolys : option nat;
  cp_maxStraightPathPoints : option nat;
}.

Record StraightPathOptions := {
  sp_maxStraightPathPoints : option nat;
  sp_straightPathOptions : option Z;
}.

Record NavMeshQuery := {
  defaultFilter : QueryFilter;
  defaultQueryHalfExtents : Vector3;
}.

Inductive NavMeshQueryArg :=
| OfRaw (value : Eng R)
| OfParams (navMesh : NavMeshRaw R) (maxNodes : option nat).

Definition setEngine (e : Eng R) : M unit := fun w =>
  (tt, {| filters := filters w; engine := e; calls := calls w |}).

Definition NavMeshQuery_new (value : NavMeshQueryArg) : M NavMeshQuery :=
  _ ← setEngine
        match value with
        | OfRaw e => e
        | OfParams navMesh maxNodes =>
            raw_init R navMesh (default 2048%nat maxNodes) (raw_new R)
        end;
  f ← QueryFilter_new None;
  _ ← set_includeFlags f 0xffff;
  _ ← set_excludeFlags f 0;
  mret {| defaultFilter := f;
          defaultQueryHalfExtents :=
            {| x := num_one; y := num_one; z := num_one |} |}.

Section Methods.

Variable this : NavMeshQuery.

(** [options?.filter?.raw ?? this.defaultFilter.raw] *)
Definition filterRaw (f : option QueryFilter) : nat :=
  raw (default (defaultFilter this) f).

Definition findNearestPoly (position : Vector3)
    (options : option SearchOptions) : M (Result NearestPoly) :=
  let center := vec3_toArray position in
  let halfExtents :=
    vec3_toArray
      (default (defaultQueryHalfExtents this) (options ≫= so_halfExtents)) in
  let h := filterRaw (options ≫= so_filter) in
  flt ← readFilter h;
  '(st, ref, pt, over) ←
    native (CallFindNearestPoly center halfExtents h)
           (raw_findNearestPoly R center halfExtents flt);
  mret (result st {| nearestRef := ref;
                     nearestPoint := vec3_fromRaw pt;
                     isOverPoly := over |}).

Definition findPolysAroundCircle (startRef : Z) (centerPos : Vector3)
    (radius : num) (options : option BoundedOptions)
  : M (Result PolysAroundCircle) :=
  let h := filterRaw (options ≫= bo_filter) in
  let maxPolys := default 256%nat (options ≫= bo_max) in
  let resultRef := resize 0 maxPolys [] in
  let resultParent := resize 0 maxPolys [] in
  flt ← readFilter h;
  '(st, refs, parents, cost, count) ←
    native (CallFindPolysAroundCircle startRef (vec3_toArray centerPos)
              radius h maxPolys)
           (raw_findPolysAroundCircle R startRef (vec3_toArray centerPos)
              radius flt resultRef resultParent maxPolys);
  mret (result st {| resultRefs := array (get 0 refs) count;
                     resultParents := array (get 0 parents) count;
                     resultCost := cost;
                     resultCount := count |}).

Definition queryPolygons (center halfExtents : Vector3)
    (options : option BoundedOptions) : M (Result Polygons) :=
  let h := filterRaw (options ≫= bo_filter) in
  let maxPolys := default 256%nat (options ≫= bo_max) in
  let polysRef := resize 0 maxPolys [] in
  flt ← readFilter h;
  '(st, refs, count) ←
    native (CallQueryPolygons (vec3_toArray center)
              (vec3_toArray halfExtents) h maxPolys)
           (raw_queryPolygons R (vec3_toArray center)
              (vec3_toArray halfExtents) flt polysRef maxPolys);
  mret (result st {| polyRefs := array (get 0 refs) count;
                     polyCount := count |}).

Definition closestPointOnPoly (polyRef : Z) (position : Vector3)
  : M (Result ClosestPoint) :=
  '(st, pt, over) ←
    native (CallClosestPointOnPoly polyRef (vec3_toArray position))
           (raw_closestPointOnPoly R polyRef (vec3_toArray position));
  mret (result st {| closestPoint := vec3_fromRaw pt;
                     posOverPoly := over |}).

Definition getClosestPoint (position : Vector3)
    (options : option SearchOptions) : M Vector3 :=
  let halfExtents :=
    vec3_toArray
      (default (defaultQueryHalfExtents this) (options ≫= so_halfExtents)) in
  let h := filterRaw (options ≫= so_filter) in
  flt ← readFilter h;
  closestPointRaw ←
    native (CallGetClosestPoint (vec3_toArray position) halfExtents h)
           (raw_getClosestPoint R (vec3_toArray position) halfExtents flt);
  mret (vec3_fromRaw closestPointRaw).

Definition getRandomPointAround (position : Vector3) (radius : num)
    (options : option SearchOptions) : M Vector3 :=
  let halfExtents :=
    vec3_toArray
      (default (defaultQueryHalfExtents this) (options ≫= so_halfExtents)) in
  let h := filterRaw (options ≫= so_filter) in
  flt ← readFilter h;
  randomPointRaw ←
    native (CallGetRandomPointAround (vec3_toArray position) radius
              halfExtents h)
           (raw_getRandomPointAround R (vec3_toArray position) radius
              halfExtents flt);
  mret (vec3_fromRaw randomPointRaw).

Definition moveAlongSurface (startRef : Z)
    (startPosition endPosition : Vector3) (options : option BoundedOptions)
  : M (Result SurfaceMove) :=
  let maxVisitedSize := default 256%nat (options ≫= bo_max) in
  let h := filterRaw (options ≫= bo_filter) in
  flt ← readFilter h;
  '(st, pos, vis) ←
    native (CallMoveAlongSurface startRef (vec3_toArray startPosition)
              (vec3_toArray endPosition) h maxVisitedSize)
           (raw_moveAlongSurface R startRef (vec3_toArray startPosition)
              (vec3_toArray endPosition) flt [] maxVisitedSize);
  mret (result st {| resultPosition := vec3_fromRaw pos;
                     visited := array (get 0 vis) (length vis) |}).

Definition findRandomPoint (options : option FilterOptions)
  : M (Result RandomPoint) :=
  let h := filterRaw (options ≫= fo_filter) in
  flt ← readFilter h;
  '(st, ref, pt) ←
    native (CallFindRandomPoint h) (raw_findRandomPoint R flt);
  mret (result st {| randomPolyRef := ref;
                     randomPoint := vec3_fromRaw pt |}).

Definition getPolyHeight (polyRef : Z) (position : Vector3)
  : M (Result PolyHeight) :=
  '(st, hgt) ←
    native (CallGetPolyHeight polyRef (vec3_toArray position))
           (raw_getPolyHeight R polyRef (vec3_toArray position));
  mret (result st {| height := hgt |}).

Definition findPath (startRef endRef : Z)
    (startPosition endPosition : Vector3) (options : option BoundedOptions)
  : M (Result PolyPath) :=
  let h := filterRaw (options ≫= bo_filter) in
  let maxPathPolys := default 256%nat (options ≫= bo_max) in
  let polys0 := resize 0 maxPathPolys [] in
  flt ← readFilter h;
  '(st, ps) ←
    native (CallFindPath startRef endRef (vec3_toArray startPosition)
              (vec3_toArray endPosition) h maxPathPolys)
           (raw_findPath R startRef endRef (vec3_toArray startPosition)
              (vec3_toArray endPosition) flt polys0 maxPathPolys);
  mret (result st {| polys := ps |}).

Definition findStraightPath (start end_ : Vector3) (path_ : list Z)
    (options : option StraightPathOptions) : M (Result StraightPath) :=
  let maxStraightPathPoints :=
    default 256%nat (options ≫= sp_maxStraightPathPoints) in
  let straightPathOptions := default 0 (options ≫= sp_straightPathOptions) in
  let straightPath0 := resize num_zero (maxStraightPathPoints * 3) [] in
  let straightPathFlags0 := resize 0 maxStraightPathPoints [] in
  let straightPathRefs0 := resize 0 maxStraightPathPoints [] in
  '(st, pts, flags, refs, count) ←
    native (CallFindStraightPath (vec3_toArray start) (vec3_toArray end_)
              path_ maxStraightPathPoints straightPathOptions)
           (raw_findStraightPath R (vec3_toArray start) (vec3_toArray end_)
              path_ straightPath0 straightPathFlags0 straightPathRefs0
              maxStraightPathPoints straightPathOptions);
  mret (result st {| straightPath := pts;
                     straightPathFlags := flags;
                     straightPathRefs := refs;
                     straightPathCount := count |}).

Definition failed (name_ : string) (st : option (dtStatus R)) : ComputedPath :=
  {| computed := false;
     error := Some {| name := name_; error_status := st |};
     path := [] |}.

(** The option objects that [computePath] builds for its sub-operations:
    [{ filter }], [{ filter, maxPathPolys }] and [{ maxStraightPathPoints }]. *)
Definition pathFilter (options : option ComputePathOptions) : QueryFilter :=
  default (defaultFilter this) (options ≫= cp_filter).

Definition nearestOptions (options : option ComputePathOptions)
  : option SearchOptions :=
  Some {| so_filter := Some (pathFilter options); so_halfExtents := None |}.

Definition corridorOptions (options : option ComputePathOptions)
  : option BoundedOptions :=
  Some {| bo_filter := Some (pathFilter options);
          bo_max := Some (default 256%nat (options ≫= cp_maxPathPolys)) |}.

Definition straightOptions (options : option ComputePathOptions)
  : option StraightPathOptions :=
  Some {| sp_maxStraightPathPoints := options ≫= cp_maxStraightPathPoints;
          sp_straightPathOptions := None |}.

(** [points.push({ x: straightPath.get(i * 3), ... })] for [i] below
    [straightPathCount]. *)
Definition pointAt (sp : list num) (i : nat) : Vector3 :=
  {| x := get num_zero sp (i * 3);
     y := get num_zero sp (i * 3 + 1);
     z := get num_zero sp (i * 3 + 2) |}.

Definition formatPoints (sp : list num) (count : nat) : list Vector3 :=
  map (pointAt sp) (seq 0 count).

Definition computePath (start end_ : Vector3)
    (options : option ComputePathOptions) : M ComputedPath :=
  startNearestPolyResult ← findNearestPoly start (nearestOptions options);
  if negb (success startNearestPolyResult) then
    mret (failed "findNearestPoly for start position failed"
                 (Some (status startNearestPolyResult)))
  else
  endNearestPolyResult ← findNearestPoly end_ (nearestOptions options);
  if negb (success endNearestPolyResult) then
    mret (failed "findNearestPoly for end position failed"
                 (Some (status endNearestPolyResult)))
  else
  let startRef := nearestRef (payload startNearestPolyResult) in
  let endRef := nearestRef (payload endNearestPolyResult) in
  findPathResult ←
    findPath startRef endRef start end_ (corridorOptions options);
  if negb (success findPathResult) then
    mret (failed "findPath unsuccessful" (Some (status findPathResult)))
  else
  let corridor := polys (payload findPathResult) in
  if (length corridor <=? 0)%nat then
    mret (failed "no polygon path found" None)
  else
  let lastPoly := get 0 corridor (length corridor - 1) in
  closest ←
    (if negb (lastPoly =? endRef) then
       lastPolyClosestPointResult ← closestPointOnPoly lastPoly end_;
       if negb (success lastPolyClosestPointResult) then
         mret (inl (failed "no closest point on last polygon found"
                           (Some (status lastPolyClosestPointResult))))
       else
         mret (inr (closestPoint (payload lastPolyClosestPointResult)))
     else
       mret (inr {| x := x end_; y := y end_; z := z end_ |}));
  match closest with
  | inl early => mret early
  | inr closestEnd =>
    findStraightPathResult ←
      findStraightPath start closestEnd corridor (straightOptions options);
    if negb (success findStraightPathResult) then
      mret (failed "findStraightPath unsuccessful"
                   (Some (status findStraightPathResult)))
    else
    mret {| computed := true; error := None;
            path := formatPoints
                      (straightPath (payload findStraightPathResult))
                      (straightPathCount (payload findStraightPathResult)) |}
  end.

(** ** The sub-operations of [computePath], in order

    [ClosestEnd endRef corridor w closestEnd w'] : the end position handed to
    string pulling for a non-empty corridor, and the world once it is
    known. *)
Inductive ClosestEnd (end_ : Vector3) (endRef : Z) (corridor : list Z)
    (w : World) : Vector3 -> World -> Prop :=
| EndInEndPoly :
    corridor <> [] ->
    get 0 corridor (length corridor - 1) = endRef ->
    ClosestEnd end_ endRef corridor w
      {| x := x end_; y := y end_; z := z end_ |} w
| EndOnLastPoly r w' :
    corridor <> [] ->
    get 0 corridor (length corridor - 1) <> endRef ->
    closestPointOnPoly (get 0 corridor (length corridor - 1)) end_ w
      = (r, w') ->
    success r = true ->
    ClosestEnd end_ endRef corridor w (closestPoint (payload r)) w'.

(** [FirstFailure start end_ options w st w'] : running the sub-operations of
    [computePath] from [w], the first one to fail does so with status [st]
    and leaves the world [w']. *)
Inductive FirstFailure (start end_ : Vector3)
    (options : option ComputePathOptions) (w : World)
  : dtStatus R -> World -> Prop :=
| StartNearestFails r1 w1 :
    findNearestPoly start (nearestOptions options) w = (r1, w1) ->
    success r1 = false ->
    FirstFailure start end_ options w (status r1) w1
| EndNearestFails r1 w1 r2 w2 :
    findNearestPoly start (nearestOptions options) w = (r1, w1) ->
    success r1 = true ->
    findNearestPoly end_ (nearestOptions options) w1 = (r2, w2) ->
    success r2 = false ->
    FirstFailure start end_ options w (status r2) w2
| FindPathFails r1 w1 r2 w2 r3 w3 :
    findNearestPoly start (nearestOptions options) w = (r1, w1) ->
    success r1 = true ->
    findNearestPoly end_ (nearestOptions options) w1 = (r2, w2) ->
    success r2 = true ->
    findPath (nearestRef (payload r1)) (nearestRef (payload r2)) start end_
      (corridorOptions options) w2 = (r3, w3) ->
    success r3 = false ->
    FirstFailure start end_ options w (status r3) w3
| ClosestPointFails r1 w1 r2 w2 r3 w3 r4 w4 :
    findNearestPoly start (nearestOptions options) w = (r1, w1) ->
    success r1 = true ->
    findNearestPoly end_ (nearestOptions options) w1 = (r2, w2) ->
    success r2 = true ->
    findPath (nearestRef (payload r1)) (nearestRef (payload r2)) start end_
      (corridorOptions options) w2 = (r3, w3) ->
    success r3 = true ->
    polys (payload r3) <> [] ->
    get 0 (polys (payload r3)) (length (polys (payload r3)) - 1)
      <> nearestRef (payload r2) ->
    closestPointOnPoly
      (get 0 (polys (payload r3)) (length (polys (payload r3)) - 1))
      end_ w3 = (r4, w4) ->
    success r4 = false ->
    FirstFailure start end_ options w (status r4) w4
| FindStraightPathFails r1 w1 r2 w2 r3 w3 closestEnd w4 r5 w5 :
    findNearestPoly start (nearestOptions options) w = (r1, w1) ->
    success r1 = true ->
    findNearestPoly end_ (nearestOptions options) w1 = (r2, w2) ->
    success r2 = true ->
    findPath (nearestRef (payload r1)) (nearestRef (payload r2)) start end_
      (corridorOptions options) w2 = (r3, w3) ->
    success r3 = true ->
    ClosestEnd end_ (nearestRef (payload r2)) (polys (payload r3)) w3
      closestEnd w4 ->
    findStraightPath start closestEnd (polys (payload r3))
      (straightOptions options) w4 = (r5, w5) ->
    success r5 = false ->
    FirstFailure start end_ options w (status r5) w5.

End Methods.

(** ** Result objects as JavaScript values

    The object literal each method returns, field by field. *)
#[local] Unset Elimination Schemes.
Inductive JsVal :=
| JsUndefined
| JsBool (b : bool)
| JsNumber (n : num)
| JsInt (i : Z)
| JsStatus (s : dtStatus R)
| JsString (s : string)
| JsArray (items : list JsVal)
| JsObject (fields : list (string * JsVal)).
#[local] Set Elimination Schemes.

Class Fields (P : Type) := fields : P -> list (string * JsVal).

Definition jsVector3 (v : Vector3) : JsVal :=
  JsObject [("x", JsNumber (x v)); ("y", JsNumber (y v));
            ("z", JsNumber (z v))].

Definition jsRefs (l : list Z) : JsVal := JsArray (map JsInt l).

#[global] Instance NearestPoly_fields : Fields NearestPoly := fun p =>
  [("nearestRef", JsInt (nearestRef p));
   ("nearestPoint", jsVector3 (nearestPoint p));
   ("isOverPoly", JsBool (isOverPoly p))].

#[global] Instance PolysAroundCircle_fields : Fields PolysAroundCircle :=
  fun p =>
  [("resultRefs", jsRefs (resultRefs p));
   ("resultParents", jsRefs (resultParents p));
   ("resultCost", JsNumber (resultCost p));
   ("resultCount", JsInt (Z.of_nat (resultCount p)))].

#[global] Instance Polygons_fields : Fields Polygons := fun p =>
  [("polyRefs", jsRefs (polyRefs p));
   ("polyCount", JsInt (Z.of_nat (polyCount p)))].

#[global] Instance ClosestPoint_fields : Fields ClosestPoint := fun p =>
  [("closestPoint", jsVector3 (closestPoint p));
   ("posOverPoly", JsBool (posOverPoly p))].

#[global] Instance SurfaceMove_fields : Fields SurfaceMove := fun p =>
  [("resultPosition", jsVector3 (resultPosition p));
   ("visited", jsRefs (visited p))].

#[global] Instance RandomPoint_fields : Fields RandomPoint := fun p =>
  [("randomPolyRef", JsInt (randomPolyRef p));
   ("randomPoint", jsVector3 (randomPoint p))].

#[global] Instance PolyHeight_fields : Fields PolyHeight := fun p =>
  [("height", JsNumber (height p))].

#[global] Instance PolyPath_fields : Fields PolyPath := fun p =>
  [("polys", jsRefs (polys p))].

#[global] Instance StraightPath_fields : Fields StraightPath := fun p =>
  [("straightPath", JsArray (map JsNumber (straightPath p)));
   ("straightPathFlags", jsRefs (straightPathFlags p));
   ("straightPathRefs", jsRefs (straightPathRefs p));
   ("straightPathCount", JsInt (Z.of_nat (straightPathCount p)))].

Definition jsResult {P} `{Fields P} (r : Result P) : JsVal :=
  JsObject (("success", JsBool (success r))
            :: ("status", JsStatus (status r))
            :: fields (payload r)).

Definition jsPathError (e : PathError) : JsVal :=
  JsObject (("name", JsString (name e))
            :: match error_status e with
               | Some st => [("status", JsStatus st)]
               | None => []
               end).

Definition jsComputedPath (r : ComputedPath) : JsVal :=
  JsObject (("success", JsBool (computed r))
            :: match error r with
               | Some e => [("error", jsPathError e)]
               | None => []
               end
            ++ [("path", JsArray (map jsVector3 (path r)))]).

Definition field (k : string) (v : JsVal) : option JsVal :=
  match v with
  | JsObject fs => snd <$> List.find (fun kv => String.eqb (fst kv) k) fs
  | _ => None
  end.

(** A result object reports the outcome of the operation explicitly when it
    has a boolean [success] field and a [status] field. *)
Definition reportsStatus (v : JsVal) : bool :=
  match field "success" v, field "status" v with
  | Some (JsBool _), Some (JsStatus _) => true
  | _, _ => false
  end.

(** ** Notions used to state the properties of the wrapper *)

(** A computation that leaves the filter heap as it found it. *)
Definition keepsFilters {A} (m : M A) : Prop :=
  forall w : World, filters (m w).2 = filters w.

(** What a caller can observe of a filter object. *)
Definition sameFilter (f : QueryFilter) (w w' : World) : Prop :=
  run (get_includeFlags f) w' = run (get_includeFlags f) w /\
  run (get_excludeFlags f) w' = run (get_excludeFlags f) w /\
  forall i, run (getAreaCost f i) w' = run (getAreaCost f i) w.

(** A result object is explicit about the outcome: it has the fields
    [success] and [status], and [success] is the native verdict on
    [status]. *)
Definition explicitOutcome {P} `{Fields P} (r : Result P) : Prop :=
  reportsStatus (jsResult r) = true /\
  success r = statusSucceed R (status r).

(** One native call [op], recorded as [c], that is handed the filter object
    [h] as it is when the call is made and the native query object; [build]
    packages what the call returns. *)
Definition viaFilter {A B} (h : nat) (c : RawCall)
    (op : dtQueryFilter -> Eng R -> B * Eng R) (build : B -> A) : M A :=
  fun w =>
    let out := op (filterAt w h) (engine w) in
    (build out.1,
     {| filters := filters w; engine := out.2; calls := calls w ++ [c] |}).

End Wrapper.

Arguments Vector3 : clear implicits.
Arguments dtQueryFilter : clear implicits.
Arguments RawModule : clear implicits.
Arguments RawCall : clear implicits.
Arguments NavMeshQuery : clear implicits.
Arguments SearchOptions : clear implicits.
Arguments NearestPoly : clear implicits.
Arguments PolysAroundCircle : clear implicits.
Arguments ClosestPoint : clear implicits.
Arguments SurfaceMove : clear implicits.
Arguments RandomPoint : clear implicits.
Arguments PolyHeight : clear implicits.
Arguments StraightPath : clear implicits.
Arguments success {num R P} _.
Arguments status {num R P} _.
Arguments payload {num R P} _.
Arguments result {num} R {P} _ _.
Arguments keepsFilters {num} R {A} m.
Arguments sameFilter {num NB R} f w w'.
Arguments explicitOutcome {num R P _} r.
Arguments viaFilter {num} R {A B} h c op build.

(** * The native query engine, from the specification

    The query engine that the wrapper drives is native code outside the
    sources at hand.  Its data and its operations are modelled here from the
    specification.  Computational geometry on floating-point coordinates
    (bounds overlap, closest point on a polygon, distances, the funnel's
    turn tests) is taken from the mesh store as given functions; filtering,
    validation, result bounding, the corridor search and the framing of a
    straight path are written out. *)

Section Engine.

Context {num : Type} {NO : NumOps num} {NB : NumBits num}.

Abbreviation Vector3 := (Vector3 num).
Abbreviation dtQueryFilter := (dtQueryFilter num).

(** Modelled from the spec: a polygon of the tiled mesh store, with its
    traversal flags, its area id and the targets of its outgoing links. *)
Record Poly := {
  poly_flags : Z;
  poly_area : Z;
  poly_links : list Z;
}.

(** Modelled from the spec: the per-vertex flags of a straight path,
    "normal, link-entry, path-end". *)
Inductive VertexFlag := Normal | LinkEntry | PathEnd.

Record StraightVertex := {
  sv_point : Vector3;
  sv_flag : VertexFlag;
  sv_ref : Z;
}.

(** Modelled from the spec: the tiled mesh store, immutable for the query
    engine.  Polygons are found by reference ([0] is reserved as "none"); the
    geometric queries over tiles, bounding-volume trees and detail meshes are
    the store's functions. *)
Record MeshStore := {
  ms_polys : gmap Z Poly;
  (* polygons whose bounds intersect the box, in the order encountered *)
  boxCandidates : list num -> list num -> list Z;
  (* closest point on a polygon, and whether the position is over it *)
  closestOnPoly : Z -> list num -> Vector3 * bool;
  distance : list num -> Vector3 -> num;
  (* distance between polygon centres, or the off-mesh connection length *)
  edgeLength : Z -> Z -> num;
  (* straight-line distance from a polygon to the goal position *)
  heuristic : Z -> list num -> num;
  touchesCircle : Z -> list num -> num -> bool;
  (* the vertices the funnel emits between the start and the end point *)
  funnelVertices : Vector3 -> Vector3 -> list Z -> Z -> list StraightVertex;
  surfaceWalk : Z -> list num -> list num -> dtQueryFilter -> Vector3 * list Z;
  detailHeight : Z -> list num -> option num;
  randomOnPoly : Z -> Z -> Vector3;
  randomInCircle : Z -> list num -> num -> Z -> Vector3;
  nextSeed : Z -> Z;
  (* the numeric codes of the vertex flags *)
  flagCode : VertexFlag -> Z;
  (* what the float slots outside the cost table of a new filter object
     hold; nothing in the sources at hand or in the spec determines it *)
  strayCost : Z -> num;
}.

Context (mesh : MeshStore).

(** Modelled from the spec: the status of an operation.  Truncation, a
    partial corridor and an exhausted node pool are details of a success
    ("returns best partial, not a hard error"). *)
Inductive Failure :=
| NoNearbyPolygon | InvalidStart | InvalidEnd | InvalidReference
| NotOverPolygon | NotFound.

Inductive Status :=
| Succeeded (partialResult bufferTooSmall searchExhausted : bool)
| Failed (why : Failure).

Definition succeeded (s : Status) : bool :=
  match s with Succeeded _ _ _ => true | Failed _ => false end.

Definition Done : Status := Succeeded false false false.

(** Modelled from the spec: "A reference is valid only if ..."; the salt and
    tile index checks amount to the reference naming a polygon of the
    store. *)
Definition isValidPolyRef (ref : Z) : bool :=
  negb (ref =? 0) && bool_decide (is_Some (ms_polys mesh !! ref)).

Definition passable (flt : dtQueryFilter) (ref : Z) : bool :=
  negb (ref =? 0) &&
  match ms_polys mesh !! ref with
  | Some p => passFilter flt (poly_flags p)
  | None => false
  end.

Definition areaCostOf (flt : dtQueryFilter) (ref : Z) : num :=
  match ms_polys mesh !! ref with
  | Some p => dtQueryFilter_getAreaCost (poly_area p) flt
  | None => num_one
  end.

Definition zeroVec : Vector3 :=
  {| x := num_zero; y := num_zero; z := num_zero |}.

(** Writing [n] results into a caller's buffer leaves the rest of it. *)
Definition writeInto {T} (found : list T) (buffer : list T) : list T :=
  found ++ drop (length found) buffer.

(** ** Spatial index queries (spec 4.1) *)

Definition nearer (center : list num)
    (best : option (Z * Vector3 * bool * num)) (ref : Z)
  : option (Z * Vector3 * bool * num) :=
  let '(pt, over) := closestOnPoly mesh ref center in
  let d := distance mesh center pt in
  match best with
  | None => Some (ref, pt, over, d)
  | Some (_, _, _, d0) => if num_ltb d d0 then Some (ref, pt, over, d) else best
  end.

(** Modelled from the spec: nearest polygon.  "enumerate polygons whose bounds
    intersect the box, compute the true closest point on each candidate ...,
    and return the minimum-distance polygon reference, the closest point, and
    whether the query point projects strictly inside the polygon.  Fails
    (no-nearby-polygon) if no passable polygon's box intersects the search
    region." *)
Definition findNearestPolygon (center halfExtents : list num)
    (flt : dtQueryFilter) : Status * Z * Vector3 * bool :=
  match foldl (nearer center) None
          (filter (fun r => passable flt r = true)
                  (boxCandidates mesh center halfExtents)) with
  | Some (ref, pt, over, _) => (Done, ref, pt, over)
  | None => (Failed NoNearbyPolygon, 0, zeroVec, false)
  end.

(** Modelled from the spec: box range query.  "enumerate all passable
    polygons (per filter) whose bounds intersect a box"; "if more polygons
    match than the bound, only the ... first-encountered (for box) up to the
    bound are returned, with an output count". *)
Definition queryPolygonsInBox (center halfExtents : list num)
    (flt : dtQueryFilter) (buffer : list Z) (maxPolys : nat)
  : Status * list Z * nat :=
  let matching :=
    filter (fun r => passable flt r = true)
           (boxCandidates mesh center halfExtents) in
  let found := take maxPolys matching in
  (Succeeded false (maxPolys <? length matching)%nat false,
   writeInto found buffer, length found).

(** ** Best-first search over the polygon graph (spec 4.2)

    "Open set: priority queue keyed by [f = g + h]"; "Closed set: polygons
    with finalized [g]".  The node pool is the engine's scratch state; the
    open set lists the references of the open nodes. *)
Record Node := {
  node_cost : num;
  node_total : num;
  node_parent : Z;
  node_closed : bool;
}.

Record Search := {
  pool : gmap Z Node;
  open : list Z;
  closedOrder : list Z;
  nearestSoFar : Z;
  nearestDist : num;
  outOfNodes : bool;
}.

Definition totalOf (p : gmap Z Node) (ref : Z) : num :=
  match p !! ref with Some n => node_total n | None => num_zero end.

(** The open node of lowest [f]; among equals, the one queued first. *)
Definition lowest (p : gmap Z Node) (first : Z) (rest : list Z) : Z :=
  foldl (fun best r => if num_ltb (totalOf p r) (totalOf p best) then r
                       else best) first rest.

Fixpoint removeFirst (r : Z) (l : list Z) : list Z :=
  match l with
  | [] => []
  | q :: l' => if q =? r then l' else q :: removeFirst r l'
  end.

Definition popLowest (p : gmap Z Node) (o : list Z) : option (Z * list Z) :=
  match o with
  | [] => None
  | first :: rest =>
      let best := lowest p first rest in Some (best, removeFirst best o)
  end.

Section Expansion.

(** What distinguishes the corridor search from the circle query: which
    neighbours are admitted, and the heuristic. *)
Variable admitted : Z -> bool.
Variable estimate : Z -> num.
Variable flt : dtQueryFilter.
Variable capacity : nat.

(** Modelled from the spec: "for every outgoing Link of the current polygon
    whose target polygon passes the filter, compute edge cost = Euclidean
    distance between polygon centers (or off-mesh connection length) x area
    cost multiplier of the target polygon; relax the neighbor's [g]/parent if
    improved; push/re-push into the open set".  A closed node is final.  A
    neighbour that needs a node when the pool is full is skipped and the
    search is marked exhausted. *)
Definition relax (cur : Z) (ncur : Node) (s : Search) (nb : Z) : Search :=
  if negb (passable flt nb && admitted nb) then s else
  let g := num_add (node_cost ncur)
                   (num_mul (edgeLength mesh cur nb) (areaCostOf flt nb)) in
  let h := estimate nb in
  let node := {| node_cost := g; node_total := num_add g h;
                 node_parent := cur; node_closed := false |} in
  match pool s !! nb with
  | Some n =>
      if node_closed n then s
      else if num_ltb g (node_cost n) then
        {| pool := <[nb := node]> (pool s); open := open s;
           closedOrder := closedOrder s;
           nearestSoFar := nearestSoFar s; nearestDist := nearestDist s;
           outOfNodes := outOfNodes s |}
      else s
  | None =>
      if (capacity <=? size (pool s))%nat then
        {| pool := pool s; open := open s; closedOrder := closedOrder s;
           nearestSoFar := nearestSoFar s; nearestDist := nearestDist s;
           outOfNodes := true |}
      else
        let closer := num_ltb h (nearestDist s) in
        {| pool := <[nb := node]> (pool s); open := open s ++ [nb];
           closedOrder := closedOrder s;
           nearestSoFar := if closer then nb else nearestSoFar s;
           nearestDist := if closer then h else nearestDist s;
           outOfNodes := outOfNodes s |}
  end.

Definition close (cur : Z) (n : Node) (rest : list Z) (s : Search) : Search :=
  {| pool := <[cur := {| node_cost := node_cost n;
                         node_total := node_total n;
                         node_parent := node_parent n;
                         node_closed := true |}]> (pool s);
     open := rest;
     closedOrder := closedOrder s ++ [cur];
     nearestSoFar := nearestSoFar s; nearestDist := nearestDist s;
     outOfNodes := outOfNodes s |}.

Definition linksOf (ref : Z) : list Z :=
  match ms_polys mesh !! ref with
  | Some p => poly_links p
  | None => []
  end.

(** Modelled from the spec: "Each expansion: pop lowest-f node; if it is the
    goal polygon, terminate successfully ...  Otherwise, for every outgoing
    Link ..."; "if the open set empties first", the search ends without
    reaching the goal.  Every expansion closes one more node of the pool, and
    the pool holds the start node and at most [capacity] nodes in all, so one
    more than [capacity] expansions are enough ([expand_fuel_enough]). *)
Fixpoint expand (fuel : nat) (goal : Z) (s : Search) : Search * bool :=
  match fuel with
  | O => (s, false)
  | S fuel' =>
      match popLowest (pool s) (open s) with
      | None => (s, false)
      | Some (cur, rest) =>
          match pool s !! cur with
          | None => (s, false)
          | Some n =>
              let s1 := close cur n rest s in
              if cur =? goal then (s1, true)
              else expand fuel' goal (foldl (relax cur n) s1 (linksOf cur))
          end
      end
  end.

Definition startSearch (startRef : Z) : Search :=
  {| pool := {[ startRef := {| node_cost := num_zero;
                               node_total := estimate startRef;
                               node_parent := 0;
                               node_closed := false |} ]};
     open := [startRef];
     closedOrder := [];
     nearestSoFar := startRef;
     nearestDist := estimate startRef;
     outOfNodes := false |}.

End Expansion.

(** Modelled from the spec: "reconstruct the path by walking parent
    pointers". *)
Fixpoint walkBack (fuel : nat) (p : gmap Z Node) (cur : Z) (acc : list Z)
  : list Z :=
  match fuel with
  | O => acc
  | S fuel' =>
      match p !! cur with
      | None => acc
      | Some n =>
          if node_parent n =? 0 then cur :: acc
          else walkBack fuel' p (node_parent n) (cur :: acc)
      end
  end.

(** The engine's state: the capacity of its node pool, the pool as the last
    search left it, and the state of its random source. *)
Record Engine := {
  maxNodes : nat;
  nodePool : gmap Z Node;
  seed : Z;
}.

(** Modelled from the spec: corridor search.  "Start or end polygon
    invalid/excluded by filter -> immediate failure"; "start and end polygon
    identical -> single-element path"; on an empty open set "return the
    partial path to the closest-to-goal polygon visited ..., flagged as a
    partial result"; "if the reconstructed path would exceed [the bound], it
    is truncated".  The pool is reset at the start of the search and left as
    the search ends. *)
Definition corridorSearch (startRef endRef : Z) (endPos : list num)
    (flt : dtQueryFilter) (buffer : list Z) (maxPath : nat) (e : Engine)
  : (Status * list Z) * Engine :=
  if negb (passable flt startRef) then ((Failed InvalidStart, []), e)
  else if negb (passable flt endRef) then ((Failed InvalidEnd, []), e)
  else if startRef =? endRef then
    ((Succeeded false (maxPath <? 1)%nat false, take maxPath [startRef]), e)
  else
    let estimate := fun r => heuristic mesh r endPos in
    let '(s, reached) :=
      expand (fun _ => true) estimate flt (maxNodes e) (S (maxNodes e))
             endRef (startSearch estimate startRef) in
    let last := if reached then endRef else nearestSoFar s in
    let full := walkBack (size (pool s)) (pool s) last [] in
    ((Succeeded (negb reached) (maxPath <? length full)%nat (outOfNodes s),
      take maxPath full),
     {| maxNodes := maxNodes e; nodePool := pool s; seed := seed e |}).

Definition parentOf (p : gmap Z Node) (ref : Z) : Z :=
  match p !! ref with Some n => node_parent n | None => 0 end.

Definition costOf (p : gmap Z Node) (ref : Z) : num :=
  match p !! ref with Some n => node_cost n | None => num_zero end.

(** Modelled from the spec: circle range query, "a bounded best-first graph
    expansion" from the start polygon over the polygons touching the circle;
    "only the closest (for circle) ... up to the bound are returned"; the
    cost is the "accumulated filtered path cost from start" of the last
    polygon returned. *)
Definition queryPolygonsInCircle (startRef : Z) (center : list num)
    (radius : num) (flt : dtQueryFilter) (refBuffer parentBuffer : list Z)
    (maxPolys : nat) (e : Engine)
  : (Status * list Z * list Z * num * nat) * Engine :=
  if negb (passable flt startRef) then
    ((Failed InvalidStart, refBuffer, parentBuffer, num_zero, 0%nat), e)
  else
    let '(s, _) :=
      expand (fun r => touchesCircle mesh r center radius)
             (fun _ => num_zero) flt (maxNodes e) (S (maxNodes e)) 0
             (startSearch (fun _ => num_zero) startRef) in
    let found := take maxPolys (closedOrder s) in
    ((Succeeded false (maxPolys <? length (closedOrder s))%nat (outOfNodes s),
      writeInto found refBuffer,
      writeInto (map (parentOf (pool s)) found) parentBuffer,
      costOf (pool s) (List.last found 0),
      length found),
     {| maxNodes := maxNodes e; nodePool := pool s; seed := seed e |}).

(** ** String pulling (spec 4.3) *)

Definition flatten (vs : list StraightVertex) : list num :=
  concat (map (fun v => vec3_toArray (sv_point v)) vs).

(** Modelled from the spec: straight path.  The start point is clamped to the
    first polygon of the corridor and the end point to the last; the funnel
    emits a vertex at each apex relocation and at each link entry; "the final
    emitted vertex is always the (corridor-clamped) end point, flagged as path
    end; its associated polygon reference is always none"; "if the bound is
    reached before the goal is emitted, the partial straight path (from start
    toward goal) is returned with a truncated count rather than failing". *)
Definition stringPulling (startPos endPos : list num) (path_ : list Z)
    (ptBuffer : list num) (flagBuffer refBuffer : list Z)
    (maxStraightPath : nat) (options : Z)
  : Status * list num * list Z * list Z * nat :=
  match path_ with
  | [] => (Failed InvalidReference, ptBuffer, flagBuffer, refBuffer, 0%nat)
  | first :: _ =>
      let final := List.last path_ first in
      if negb (isValidPolyRef first && isValidPolyRef final) then
        (Failed InvalidReference, ptBuffer, flagBuffer, refBuffer, 0%nat)
      else
        let startPt := fst (closestOnPoly mesh first startPos) in
        let endPt := fst (closestOnPoly mesh final endPos) in
        let full :=
          {| sv_point := startPt; sv_flag := Normal; sv_ref := first |}
          :: funnelVertices mesh startPt endPt path_ options
          ++ [ {| sv_point := endPt; sv_flag := PathEnd; sv_ref := 0 |} ] in
        let emitted := take maxStraightPath full in
        (Succeeded false (maxStraightPath <? length full)%nat false,
         writeInto (flatten emitted) ptBuffer,
         writeInto (map (fun v => flagCode mesh (sv_flag v)) emitted)
                   flagBuffer,
         writeInto (map sv_ref emitted) refBuffer,
         length emitted)
  end.

(** ** Surface movement, closest point, height (spec 4.4, 6) *)

(** Modelled from the spec: "Returns the constrained resulting position and
    the ordered list of polygons crossed; always succeeds with the best
    reachable constrained position", "until ... the caller's maximum
    visited-polygon count is exhausted". *)
Definition surfaceMovement (startRef : Z) (startPos endPos : list num)
    (flt : dtQueryFilter) (maxVisited : nat) : Status * Vector3 * list Z :=
  if negb (isValidPolyRef startRef) then
    (Failed InvalidReference, zeroVec, [])
  else
    let '(pos, crossed) := surfaceWalk mesh startRef startPos endPos flt in
    (Succeeded false (maxVisited <? length crossed)%nat false,
     pos, take maxVisited crossed).

(** Modelled from the spec:
    "closestPointOnPolygon(polygonRef, point) -> (point, isOverPolygon)". *)
Definition closestPointOnPolygon (ref : Z) (pos : list num)
  : Status * Vector3 * bool :=
  if isValidPolyRef ref then
    let '(pt, over) := closestOnPoly mesh ref pos in (Done, pt, over)
  else (Failed InvalidReference, zeroVec, false).

(** Modelled from the spec:
    "getPolygonHeight(polygonRef, point) -> height | NotOverPolygon". *)
Definition getPolygonHeight (ref : Z) (pos : list num) : Status * num :=
  if isValidPolyRef ref then
    match detailHeight mesh ref pos with
    | Some h => (Done, h)
    | None => (Failed NotOverPolygon, num_zero)
    end
  else (Failed InvalidReference, num_zero).

(** Modelled from the spec: the closest point on the mesh is the closest
    point that the nearest-polygon query reports. *)
Definition closestPointOnMesh (pos halfExtents : list num)
    (flt : dtQueryFilter) : Vector3 :=
  let '(_, _, pt, _) := findNearestPolygon pos halfExtents flt in pt.

(** ** Random points (spec 6) *)

Definition passablePolys (flt : dtQueryFilter) : list Z :=
  filter (fun r => passable flt r = true)
         (map fst (map_to_list (ms_polys mesh))).

(** Modelled from the spec: "getRandomPoint(filter) -> (polygonRef, point)". *)
Definition getRandomPoint (flt : dtQueryFilter) (e : Engine)
  : (Status * Z * Vector3) * Engine :=
  let candidates := passablePolys flt in
  let e' := {| maxNodes := maxNodes e; nodePool := nodePool e;
               seed := nextSeed mesh (seed e) |} in
  match candidates !! Z.to_nat (seed e mod Z.of_nat (length candidates)) with
  | Some ref => ((Done, ref, randomOnPoly mesh ref (seed e)), e')
  | None => ((Failed NotFound, 0, zeroVec), e')
  end.

(** Modelled from the spec:
    "getRandomPointAroundCircle(center, radius, filter) -> (polygonRef,
    point)", from the polygon nearest to the centre. *)
Definition getRandomPointAroundCircle (pos : list num) (radius : num)
    (halfExtents : list num) (flt : dtQueryFilter) (e : Engine)
  : Vector3 * Engine :=
  let e' := {| maxNodes := maxNodes e; nodePool := nodePool e;
               seed := nextSeed mesh (seed e) |} in
  match findNearestPolygon pos halfExtents flt with
  | (Succeeded _ _ _, ref, _, _) =>
      (randomInCircle mesh ref pos radius (seed e), e')
  | (Failed _, _, _, _) => (zeroVec, e')
  end.

(** ** The engine as a native module *)

Definition pure {A} (a : A) (e : Engine) : A * Engine := (a, e).

Definition specRaw : RawModule num := {|
  dtStatus := Status;
  NavMeshRaw := unit;
  Eng := Engine;
  statusSucceed := succeeded;
  raw_new := {| maxNodes := 0; nodePool := ∅; seed := 0 |};
  raw_init := fun _ n e =>
    {| maxNodes := n; nodePool := ∅; seed := seed e |};
  raw_newFilter :=
    {| m_includeFlags := 0xffff; m_excludeFlags := 0;
       m_areaCost := fun i =>
         if (0 <=? i) && (i <? DT_MAX_AREAS) then num_one
         else strayCost mesh i |};
  raw_findNearestPoly := fun c he flt => pure (findNearestPolygon c he flt);
  raw_findPolysAroundCircle := queryPolygonsInCircle;
  raw_queryPolygons := fun c he flt buf n =>
    pure (queryPolygonsInBox c he flt buf n);
  raw_closestPointOnPoly := fun r p => pure (closestPointOnPolygon r p);
  raw_getClosestPoint := fun p he flt => pure (closestPointOnMesh p he flt);
  raw_getRandomPointAround := getRandomPointAroundCircle;
  raw_moveAlongSurface := fun r s t flt _ n =>
    pure (surfaceMovement r s t flt n);
  raw_findRandomPoint := getRandomPoint;
  raw_getPolyHeight := fun r p => pure (getPolygonHeight r p);
  raw_findPath := fun a b _ endPos flt buf n =>
    corridorSearch a b endPos flt buf n;
  raw_findStraightPath := fun s t p pb fb rb n o =>
    pure (stringPulling s t p pb fb rb n o);
|}.

End Engine.

Arguments MeshStore : clear implicits.
Arguments StraightVertex : clear implicits.
Arguments Node : clear implicits.
Arguments Search : clear implicits.
Arguments Engine : clear implicits.

(** ** Notions used to state the properties of the engine *)

Section EngineNotions.

Context {num : Type} {NO : NumOps num} {NB : NumBits num}.
Context (mesh : MeshStore num).

#[local] Abbreviation R := (specRaw mesh).



(** Every node of the pool is either closed or queued, and the pool holds
    the start node and no more than [capacity] nodes. *)
Definition accounted (capacity : nat) (s : Search num) : Prop :=
  size (pool s) = (length (closedOrder s) + length (open s))%nat /\
  (forall k, k ∈ open s -> is_Some (pool s !! k)) /\
  (size (pool s) <= Nat.max 1 capacity)%nat.

End EngineNotions.

(** * Numbers kept in 32-bit floats

    The numbers of the program are IEEE 754 doubles; the native module keeps
    area costs in 32-bit floats.  The bit layout of a 32-bit float is written
    out here over the floats of the Standard Library ([SpecFloat]): one sign
    bit, eight bits of biased exponent, 23 bits of fraction. *)

Module Binary32.

Import SpecFloat.

Definition prec : Z := 24.
Definition emax : Z := 128.

Definition signBit (s : bool) : Z := if s then 2 ^ 31 else 0.

Definition bits (f : spec_float) : Z :=
  match f with
  | S754_zero s => signBit s
  | S754_infinity s => signBit s + 255 * 2 ^ 23
  | S754_nan => 255 * 2 ^ 23 + 2 ^ 22
  | S754_finite s m e =>
      if Z.pos m <? 2 ^ 23 then signBit s + Z.pos m
      else signBit s + (e + 150) * 2 ^ 23 + (Z.pos m - 2 ^ 23)
  end.

Definition ofBits (b : Z) : spec_float :=
  let s := Z.testbit b 31 in
  let expo := (b / 2 ^ 23) mod 256 in
  let frac := b mod 2 ^ 23 in
  if expo =? 255 then (if frac =? 0 then S754_infinity s else S754_nan)
  else if expo =? 0 then
    match frac with
    | Z.pos m => S754_finite s m (-149)
    | _ => S754_zero s
    end
  else S754_finite s (Z.to_pos (frac + 2 ^ 23)) (expo - 150).

(** The nearest 32-bit float, ties to even. *)
Definition round (f : spec_float) : spec_float := SFldexp prec emax f 0.

(** The integer part of a float; 0 for an infinity and for not-a-number. *)
Definition integerPart (f : spec_float) : Z :=
  match f with
  | S754_finite s m e =>
      cond_Zopp s (if 0 <=? e then Z.pos m * 2 ^ e else Z.pos m / 2 ^ (- e))
  | _ => 0
  end.

End Binary32.

(** * A flat two-by-two mesh

    The end-to-end scenario of the specification: four square polygons,
    each sharing an edge with its two neighbours, on integer coordinates
    (so that the geometry is exact); polygon 1 is the quad (0,0), polygon 4
    the quad (1,1).  Distances are taxicab distances. *)

Module Flat.

#[global] Instance Z_ops : NumOps Z := {|
  num_zero := 0;
  num_one := 1;
  num_add := Z.add;
  num_mul := Z.mul;
  num_ltb := Z.ltb;
|}.

(** An integer is kept in a float as the nearest 32-bit float.  A float that
    is not an integer has no counterpart among the integers and reads as its
    integer part; the mesh and the properties below read none (see [Doubles]
    for the numbers of the program). *)
#[global] Instance Z_bits : NumBits Z := {|
  num_bits32 := fun n =>
    Binary32.bits
      (SpecFloat.binary_normalize Binary32.prec Binary32.emax n 0 false);
  num_of_bits32 := fun b => Binary32.integerPart (Binary32.ofBits b);
|}.

Definition coord (i : nat) (p : list Z) : Z := nth i p 0.

Definition quadMin (ref : Z) : Z * Z :=
  (((ref - 1) mod 2) * 10, ((ref - 1) / 2) * 10).

Definition clamp (lo hi v : Z) : Z := Z.max lo (Z.min hi v).

Definition closest (ref : Z) (p : list Z) : Vector3 Z * bool :=
  let '(mx, mz) := quadMin ref in
  let px := clamp mx (mx + 10) (coord 0 p) in
  let pz := clamp mz (mz + 10) (coord 2 p) in
  ({| x := px; y := 0; z := pz |},
   (px =? coord 0 p) && (pz =? coord 2 p)).

Definition taxicab (p : list Z) (q : Vector3 Z) : Z :=
  Z.abs (coord 0 p - x q) + Z.abs (coord 1 p - y q) + Z.abs (coord 2 p - z q).

Definition centre (ref : Z) : Vector3 Z :=
  let '(mx, mz) := quadMin ref in {| x := mx + 5; y := 0; z := mz + 5 |}.

Definition overlaps (c he : list Z) (ref : Z) : bool :=
  let '(mx, mz) := quadMin ref in
  (mx <=? coord 0 c + coord 0 he) && (coord 0 c - coord 0 he <=? mx + 10) &&
  (0 <=? coord 1 c + coord 1 he) && (coord 1 c - coord 1 he <=? 0) &&
  (mz <=? coord 2 c + coord 2 he) && (coord 2 c - coord 2 he <=? mz + 10).

Definition quad (links : list Z) : Poly :=
  {| poly_flags := 1; poly_area := 0; poly_links := links |}.

Definition mesh : MeshStore Z := {|
  ms_polys :=
    list_to_map [(1, quad [2; 3]); (2, quad [1; 4]);
                 (3, quad [1; 4]); (4, quad [2; 3])];
  boxCandidates := fun c he =>
    filter (fun r => overlaps c he r = true) [1; 2; 3; 4];
  closestOnPoly := closest;
  distance := taxicab;
  edgeLength := fun a b => taxicab (vec3_toArray (centre a)) (centre b);
  heuristic := fun r goal => taxicab goal (centre r);
  touchesCircle := fun r c rad => taxicab c (closest r c).1 <=? rad;
  funnelVertices := fun _ _ _ _ => [];
  surfaceWalk := fun r _ t _ => ((closest r t).1, [r]);
  detailHeight := fun r p => if (closest r p).2 then Some 0 else None;
  randomOnPoly := fun r _ => centre r;
  randomInCircle := fun r p _ _ => (closest r p).1;
  nextSeed := Z.succ;
  flagCode := fun f =>
    match f with Normal => 0 | LinkEntry => 4 | PathEnd => 2 end;
  strayCost := fun _ => 0;
|}.

Definition module : RawModule Z := specRaw mesh.

Definition w0 : World module :=
  {| filters := ∅; engine := raw_new module; calls := [] |}.

(** [new NavMeshQuery({ navMesh })] *)
Definition query : NavMeshQuery Z :=
  (NavMeshQuery_new module (OfParams module tt None) w0).1.

Definition w1 : World module :=
  (NavMeshQuery_new module (OfParams module tt None) w0).2.

Definition at_ (px pz : Z) : Vector3 Z := {| x := px; y := 0; z := pz |}.


End Flat.

(** * The numbers of the program, over a mesh without polygons

    JavaScript numbers are doubles: the floats of [SpecFloat] with 53 bits
    of precision.  A double handed to the native module as a [float] is
    rounded to the nearest 32-bit float, and a [float] read back is that
    float as a double.  The mesh store has no polygons: the module serves
    for the filter objects. *)

Module Doubles.

Import SpecFloat.

Definition ofZ (n : Z) : spec_float := binary_normalize 53 1024 n 0 false.

(** A 32-bit float as a double. *)
Definition widen (f : spec_float) : spec_float := SFldexp 53 1024 f 0.

#[global] Instance double_ops : NumOps spec_float := {|
  num_zero := S754_zero false;
  num_one := ofZ 1;
  num_add := SFadd 53 1024;
  num_mul := SFmul 53 1024;
  num_ltb := SFltb;
|}.

#[global] Instance double_bits : NumBits spec_float := {|
  num_bits32 := fun v => Binary32.bits (Binary32.round v);
  num_of_bits32 := fun b => widen (Binary32.ofBits b);
|}.

Definition origin : Vector3 spec_float :=
  {| x := S754_zero false; y := S754_zero false; z := S754_zero false |}.

Definition nowhere : MeshStore spec_float := {|
  ms_polys := ∅;
  boxCandidates := fun _ _ => [];
  closestOnPoly := fun _ _ => (origin, false);
  distance := fun _ _ => S754_zero false;
  edgeLength := fun _ _ => S754_zero false;
  heuristic := fun _ _ => S754_zero false;
  touchesCircle := fun _ _ _ => false;
  funnelVertices := fun _ _ _ _ => [];
  surfaceWalk := fun _ _ _ _ => (origin, []);
  detailHeight := fun _ _ => None;
  randomOnPoly := fun _ _ => origin;
  randomInCircle := fun _ _ _ _ => origin;
  nextSeed := Z.succ;
  flagCode := fun f =>
    match f with Normal => 0 | LinkEntry => 4 | PathEnd => 2 end;
  strayCost := fun _ => S754_zero false;
|}.

Definition module : RawModule spec_float := specRaw nowhere.

Definition w0 : World module :=
  {| filters := ∅; engine := raw_new module; calls := [] |}.

(** [new NavMeshQuery({ navMesh })] *)
Definition query : NavMeshQuery spec_float :=
  (NavMeshQuery_new module (OfParams module tt None) w0).1.

Definition w1 : World module :=
  (NavMeshQuery_new module (OfParams module tt None) w0).2.

End Doubles.

(** * More of [nav-mesh-query.ts]: what the native calls are handed *)

Section CallRecords.

Context {num : Type}.

(** The filter a recorded native call was handed, if it takes one. *)
Definition callFilter (c : RawCall num) : option nat :=
  match c with
  | CallFindNearestPoly _ _ f => Some f
  | CallFindPolysAroundCircle _ _ _ f _ => Some f
  | CallQueryPolygons _ _ f _ => Some f
  | CallGetClosestPoint _ _ f => Some f
  | CallGetRandomPointAround _ _ _ f => Some f
  | CallMoveAlongSurface _ _ _ f _ => Some f
  | CallFindRandomPoint f => Some f
  | CallFindPath _ _ _ _ f _ => Some f
  | CallClosestPointOnPoly _ _ => None
  | CallGetPolyHeight _ _ => None
  | CallFindStraightPath _ _ _ _ _ => None
  end.

Definition filterIs (h : nat) (c : RawCall num) : Prop :=
  callFilter c = None \/ callFilter c = Some h.

(** The error names of [computePath], in the order of its [return]s. *)
Definition errorNames : list string :=
  ["findNearestPoly for start position failed";
   "findNearestPoly for end position failed";
   "findPath unsuccessful";
   "no polygon path found";
   "no closest point on last polygon found";
   "findStraightPath unsuccessful"].

(** [polys.get(polys.size - 1)] *)
Definition lastOf (corridor : list Z) : Z :=
  get 0 corridor (length corridor - 1).

(** The native calls of [computePath], in order, when it gets as far as
    string pulling: two nearest-polygon queries with the query object's
    default half extents, the corridor search, the closest point on the last
    corridor polygon when that is not the end polygon, and string pulling. *)
Definition fullTrace (this : NavMeshQuery num) (s t : Vector3 num)
    (o : option ComputePathOptions) (startRef endRef : Z) (corridor : list Z)
    (closestEnd : Vector3 num) : list (RawCall num) :=
  let h := raw (pathFilter this o) in
  let he := vec3_toArray (defaultQueryHalfExtents this) in
  [CallFindNearestPoly (vec3_toArray s) he h;
   CallFindNearestPoly (vec3_toArray t) he h;
   CallFindPath startRef endRef (vec3_toArray s) (vec3_toArray t) h
     (default 256%nat (o ≫= cp_maxPathPolys))]
  ++ (if lastOf corridor =? endRef then []
      else [CallClosestPointOnPoly (lastOf corridor) (vec3_toArray t)])
  ++ [CallFindStraightPath (vec3_toArray s) (vec3_toArray closestEnd) corridor
        (default 256%nat (o ≫= cp_maxStraightPathPoints)) 0].

End CallRecords.

(** * The heightfield helper ([HeightfieldHelper])

    The three.js helper that draws one box per span of each heightfield.
    Its arithmetic on coordinates needs a division and the conversion of an
    integer to a number. *)

Class NumArith (num : Type) := {
  num_div : num -> num -> num;
  num_of_Z : Z -> num;
}.

Section Heightfield.

Context {num : Type} {NO : NumOps num} {NA : NumArith num}.

Abbreviation Vector3 := (Vector3 num).

(** [rcSpan] and [rcHeightfield] as the helper reads them: [smin()],
    [smax()], [area()] and [next()] of a span (a column is the list of its
    spans, [null] the empty list), [bmin()], [cs()], [ch()], [width()],
    [height()] and [spans(i)] of a heightfield. *)
Record rcSpan := { smin : Z; smax : Z; area : Z }.

Record rcHeightfield := {
  hf_bmin : Vector3;
  hf_cs : num;
  hf_ch : num;
  hf_width : nat;
  hf_height : nat;
  hf_spans : nat -> list rcSpan;
}.

(** What the helper uses of three.js: a [Color] made from a colour
    representation, a material, a [BoxGeometry] of three sizes, and an
    [InstancedMesh] of [count] instances.  A matrix is only ever
    [tmpMatrix4.setPosition(x, y, z)] on the identity, so an instance matrix
    is the position set, and [None] in a slot that was never written;
    [instanceColor] is [null] until the first [setColorAt].  A write past
    [count] changes nothing. *)
Inductive ColorRepresentation := NamedColor (n : string) | HexColor (h : Z).

Record Color := { representation : ColorRepresentation }.

Inductive Material := MeshBasicMaterial | CustomMaterial (id : nat).

Record BoxGeometry := { box_width : num; box_height : num; box_depth : num }.

Definition Vector3Tuple : Type := num * num * num.

Record InstancedMesh := {
  im_geometry : BoxGeometry;
  im_material : Material;
  im_count : nat;
  instanceMatrix : list (option Vector3Tuple);
  matrixDynamic : bool;
  matrixNeedsUpdate : bool;
  instanceColor : option (list (option Color));
  colorNeedsUpdate : bool;
}.

Definition InstancedMesh_new (g : BoxGeometry) (m : Material) (n : nat)
  : InstancedMesh :=
  {| im_geometry := g; im_material := m; im_count := n;
     instanceMatrix := replicate n None;
     matrixDynamic := false; matrixNeedsUpdate := false;
     instanceColor := None; colorNeedsUpdate := false |}.

Definition setMatrixAt (i : nat) (p : Vector3Tuple) (m : InstancedMesh)
  : InstancedMesh :=
  {| im_geometry := im_geometry m; im_material := im_material m;
     im_count := im_count m;
     instanceMatrix := <[i := Some p]> (instanceMatrix m);
     matrixDynamic := matrixDynamic m;
     matrixNeedsUpdate := matrixNeedsUpdate m;
     instanceColor := instanceColor m;
     colorNeedsUpdate := colorNeedsUpdate m |}.

Definition setColorAt (i : nat) (c : Color) (m : InstancedMesh)
  : InstancedMesh :=
  {| im_geometry := im_geometry m; im_material := im_material m;
     im_count := im_count m;
     instanceMatrix := instanceMatrix m;
     matrixDynamic := matrixDynamic m;
     matrixNeedsUpdate := matrixNeedsUpdate m;
     instanceColor :=
       Some (<[i := Some c]>
               (default (replicate (im_count m) None) (instanceColor m)));
     colorNeedsUpdate := colorNeedsUpdate m |}.

(** ** class HeightfieldHelper *)

Record HeightfieldHelperParams := {
  p_heightfields : list rcHeightfield;
  p_highlightWalkable : option bool;
  p_defaultColor : option ColorRepresentation;
  p_walkableColor : option ColorRepresentation;
  p_material : option Material;
}.

Record HeightfieldHelper := {
  heightfields : list InstancedMesh;
  recastHeightfields : list rcHeightfield;
  highlightWalkable : bool;
  defaultColor : Color;
  walkableColor : Color;
  material : Material;
}.

Definition HeightfieldHelper_new (p : HeightfieldHelperParams)
  : HeightfieldHelper :=
  {| heightfields := [];
     recastHeightfields := p_heightfields p;
     highlightWalkable := default false (p_highlightWalkable p);
     material := default MeshBasicMaterial (p_material p);
     defaultColor :=
       {| representation :=
            default (NamedColor "blue") (p_defaultColor p) |};
     walkableColor :=
       {| representation :=
            default (NamedColor "green") (p_walkableColor p) |} |}.

Record Box := { position : Vector3Tuple; walkable : bool }.

Section Update.

Variable this : HeightfieldHelper.

Definition two : num := num_of_Z 2.

(** The box pushed for one span of the column at [(fx, fz)]. *)
Definition boxOf (orig : Vector3) (cs ch fx fz : num) (span : rcSpan) : Box :=
  let minX := fx in
  let minY := num_add (y orig) (num_mul (num_of_Z (smin span)) ch) in
  let minZ := fz in
  let maxX := num_add fx cs in
  let maxY := num_add (y orig) (num_mul (num_of_Z (smax span)) ch) in
  let maxZ := num_add fz cs in
  {| position := (num_div (num_add maxX minX) two,
                  num_div (num_add maxY minY) two,
                  num_div (num_add maxZ minZ) two);
     walkable := highlightWalkable this && negb (area span =? 0) |}.

(** [while (span) { boxes.push(...); span = span.next(); }] *)
Fixpoint walkColumn (orig : Vector3) (cs ch fx fz : num) (span : list rcSpan)
    (boxes : list Box) : list Box :=
  match span with
  | [] => boxes
  | sp :: next =>
      walkColumn orig cs ch fx fz next (boxes ++ [boxOf orig cs ch fx fz sp])
  end.

Definition columnOrigin (orig cs : num) (i : nat) : num :=
  num_add orig (num_mul (num_of_Z (Z.of_nat i)) cs).

(** The two nested loops over the cells, rows outermost. *)
Definition collectBoxes (hf : rcHeightfield) : list Box :=
  let orig := hf_bmin hf in
  let cs := hf_cs hf in
  let ch := hf_ch hf in
  foldl (fun boxes yi =>
           foldl (fun boxes xi =>
                    let fx := columnOrigin (x orig) cs xi in
                    let fz := columnOrigin (z orig) cs yi in
                    walkColumn orig cs ch fx fz
                      (hf_spans hf (xi + yi * hf_width hf)) boxes)
                 boxes (seq 0 (hf_width hf)))
        [] (seq 0 (hf_height hf)).

Definition colorOf (b : Box) : Color :=
  if walkable b then walkableColor this else defaultColor this.

(** [for (let i = 0; i < boxes.length; i++)]; [boxes[i]] is defined for
    each such [i]. *)
Definition fillStep (boxes : list Box) (m : InstancedMesh) (i : nat)
  : InstancedMesh :=
  match boxes !! i with
  | Some b => setColorAt i (colorOf b) (setMatrixAt i (position b) m)
  | None => m
  end.

Definition fillInstances (boxes : list Box) (mesh : InstancedMesh)
  : InstancedMesh :=
  foldl (fillStep boxes) mesh (seq 0 (length boxes)).

Definition finish (m : InstancedMesh) : InstancedMesh :=
  {| im_geometry := im_geometry m; im_material := im_material m;
     im_count := im_count m;
     instanceMatrix := instanceMatrix m;
     matrixDynamic := matrixDynamic m;
     matrixNeedsUpdate := true;
     instanceColor := instanceColor m;
     colorNeedsUpdate :=
       match instanceColor m with
       | Some _ => true
       | None => colorNeedsUpdate m
       end |}.

Definition setDynamic (m : InstancedMesh) : InstancedMesh :=
  {| im_geometry := im_geometry m; im_material := im_material m;
     im_count := im_count m;
     instanceMatrix := instanceMatrix m;
     matrixDynamic := true;
     matrixNeedsUpdate := matrixNeedsUpdate m;
     instanceColor := instanceColor m;
     colorNeedsUpdate := colorNeedsUpdate m |}.

(** The body of the loop over the heightfields. *)
Definition buildMesh (hf : rcHeightfield) : InstancedMesh :=
  let boxes := collectBoxes hf in
  let geometry :=
    {| box_width := hf_cs hf; box_height := hf_ch hf;
       box_depth := hf_cs hf |} in
  let instancedMesh :=
    InstancedMesh_new geometry (material this) (length boxes) in
  finish (fillInstances boxes (setDynamic instancedMesh)).

(** [this.heightfields.clear()], then one [add] per heightfield. *)
Definition updateHeightfield : HeightfieldHelper :=
  {| heightfields :=
       foldl (fun group hf => group ++ [buildMesh hf]) []
             (recastHeightfields this);
     recastHeightfields := recastHeightfields this;
     highlightWalkable := highlightWalkable this;
     defaultColor := defaultColor this;
     walkableColor := walkableColor this;
     material := material this |}.

End Update.

(** The boxes of the cell [(xi, yi)], one per span of its column. *)
Definition cellBoxes (this : HeightfieldHelper) (hf : rcHeightfield)
    (yi xi : nat) : list Box :=
  map (boxOf this (hf_bmin hf) (hf_cs hf) (hf_ch hf)
         (columnOrigin (x (hf_bmin hf)) (hf_cs hf) xi)
         (columnOrigin (z (hf_bmin hf)) (hf_cs hf) yi))
      (hf_spans hf (xi + yi * hf_width hf)).

(** The colour the helper gives to the box of a span. *)
Definition spanColor (this : HeightfieldHelper) (sp : rcSpan) : Color :=
  if highlightWalkable this && negb (area sp =? 0) then walkableColor this
  else defaultColor this.

(** The middle of the box that a span of the cell [(xi, yi)] fills: the box
    from [(fx, bmin.y + smin * ch, fz)] to
    [(fx + cs, bmin.y + smax * ch, fz + cs)], where [(fx, fz)] is the corner
    [(bmin.x + xi * cs, bmin.z + yi * cs)] of the cell. *)
Definition spanCentre (hf : rcHeightfield) (yi xi : nat) (sp : rcSpan)
  : Vector3Tuple :=
  let cs := hf_cs hf in
  let ch := hf_ch hf in
  let fx := num_add (x (hf_bmin hf)) (num_mul (num_of_Z (Z.of_nat xi)) cs) in
  let fz := num_add (z (hf_bmin hf)) (num_mul (num_of_Z (Z.of_nat yi)) cs) in
  let low := num_add (y (hf_bmin hf)) (num_mul (num_of_Z (smin sp)) ch) in
  let high := num_add (y (hf_bmin hf)) (num_mul (num_of_Z (smax sp)) ch) in
  (num_div (num_add (num_add fx cs) fx) (num_of_Z 2),
   num_div (num_add high low) (num_of_Z 2),
   num_div (num_add (num_add fz cs) fz) (num_of_Z 2)).

(** The spans of a heightfield, column after column. *)
Definition allSpans (hf : rcHeightfield) : list rcSpan :=
  flat_map (hf_spans hf) (seq 0 (hf_width hf * hf_height hf)).

End Heightfield.

Arguments rcHeightfield : clear implicits.
Arguments BoxGeometry : clear implicits.
Arguments Vector3Tuple : clear implicits.
Arguments InstancedMesh : clear implicits.
Arguments HeightfieldHelper : clear implicits.
Arguments HeightfieldHelperParams : clear implicits.
Arguments Box : clear implicits.

(** * The bounds of [NavMeshCreateParams]

    [boundsMin], [setBoundsMin], [boundsMax] and [setBoundsMax] of the class
    [NavMeshCreateParams], over the accessors of the native
    [dtNavMeshCreateParams] object that they call. *)

Section CreateParams.

Context {num : Type} {NO : NumOps num}.

(** The native object's [get_bmin(i)], [set_bmin(i, v)], [get_bmax(i)] and
    [set_bmax(i, v)]. *)
Record RawCreateParams := {
  Params : Type;
  get_bmin : nat -> Params -> num;
  set_bmin : nat -> num -> Params -> Params;
  get_bmax : nat -> Params -> num;
  set_bmax : nat -> num -> Params -> Params;
}.

Context (C : RawCreateParams).

(** A [Vector3Tuple] is an array of three numbers. *)
Definition boundsMin (this : Params C) : list num :=
  array (fun i => get_bmin C i this) 3.

Definition setBoundsMin (value : list num) (this : Params C) : Params C :=
  set_bmin C 2 (get num_zero value 2)
    (set_bmin C 1 (get num_zero value 1)
       (set_bmin C 0 (get num_zero value 0) this)).

Definition boundsMax (this : Params C) : list num :=
  array (fun i => get_bmax C i this) 3.

Definition setBoundsMax (value : list num) (this : Params C) : Params C :=
  set_bmax C 2 (get num_zero value 2)
    (set_bmax C 1 (get num_zero value 1)
       (set_bmax C 0 (get num_zero value 0) this)).

(** What the wrapper relies on in the native object: an entry of [bmin] or
    [bmax] reads as what was last stored in it ([stored v] is the number the
    native field keeps of [v]), and a store changes no other entry. *)
Record BoundsStore (stored : num -> num) : Prop := {
  min_set_same : forall i v p, get_bmin C i (set_bmin C i v p) = stored v;
  min_set_other : forall i j v p,
    i <> j -> get_bmin C j (set_bmin C i v p) = get_bmin C j p;
  max_set_same : forall i v p, get_bmax C i (set_bmax C i v p) = stored v;
  max_set_other : forall i j v p,
    i <> j -> get_bmax C j (set_bmax C i v p) = get_bmax C j p;
  min_set_max : forall i j v p,
    get_bmin C j (set_bmax C i v p) = get_bmin C j p;
  max_set_min : forall i j v p,
    get_bmax C j (set_bmin C i v p) = get_bmax C j p;
}.

End CreateParams.

Arguments RawCreateParams : clear implicits.

(** * A small heightfield and a bounds store

    A heightfield of two columns on integer coordinates: two spans in
    column 0, the upper one of area 0, and one span in column 1. *)

Module Terrace.

#[global] Instance Z_arith : NumArith Z := {|
  num_div := Z.div;
  num_of_Z := fun v => v;
|}.

Definition field : rcHeightfield Z := {|
  hf_bmin := {| x := 0; y := 0; z := 0 |};
  hf_cs := 2;
  hf_ch := 1;
  hf_width := 2;
  hf_height := 1;
  hf_spans := fun i =>
    match i with
    | 0%nat => [ {| smin := 0; smax := 2; area := 1 |};
                 {| smin := 4; smax := 6; area := 0 |} ]
    | 1%nat => [ {| smin := 0; smax := 4; area := 63 |} ]
    | _ => []
    end;
|}.

(** [new HeightfieldHelper({ heightfields: [field] })] *)
Definition params : HeightfieldHelperParams Z :=
  {| p_heightfields := [field]; p_highlightWalkable := None;
     p_defaultColor := None; p_walkableColor := None;
     p_material := None |}.

Definition helper : HeightfieldHelper Z := HeightfieldHelper_new params.

Definition blue : Color := {| representation := NamedColor "blue" |}.

(** A native bounds object that keeps what is stored in it. *)
Definition setAt (i : nat) (v : Z) (f : nat -> Z) : nat -> Z :=
  fun j => if Nat.eqb j i then v else f j.

Definition store : RawCreateParams Z := {|
  Params := (nat -> Z) * (nat -> Z);
  get_bmin := fun i p => p.1 i;
  set_bmin := fun i v p => (setAt i v p.1, p.2);
  get_bmax := fun i p => p.2 i;
  set_bmax := fun i v p => (p.1, setAt i v p.2);
|}.

Definition unset : Params store := (fun _ => 0, fun _ => 0).

End Terrace.

(** * Properties of the wrapper, for any native module *)

Section WrapperFacts.

Context {num : Type} {NO : NumOps num} {NB : NumBits num}.
Context (R : RawModule num).

Implicit Types (w : World R) (this : NavMeshQuery num) (f : QueryFilter).

Lemma bind_unfold {A B} (m : M R A) (k : A -> M R B) w :
  (m ≫= k) w = k (m w).1 (m w).2.
Proof. unfold mbind, M_bind. destruct (m w); reflexivity. Qed.

Lemma length_array {T} (g : nat -> T) n : length (array g n) = n.
Proof. unfold array. rewrite length_map. apply length_seq. Qed.

Lemma native_unfold {A} c (op : Eng R -> A * Eng R) w :
  native R c op w
  = ((op (engine R w)).1,
     {| filters := filters R w; engine := (op (engine R w)).2;
        calls := calls R w ++ [c] |}).
Proof. unfold native. destruct (op (engine R w)); reflexivity. Qed.

(** ** The filter heap is a frame of every query *)

Lemma keeps_ret {A} (a : A) : keepsFilters R (mret a).
Proof. intros w. reflexivity. Qed.

Lemma keeps_bind {A B} (m : M R A) (k : A -> M R B) :
  keepsFilters R m -> (forall a, keepsFilters R (k a)) ->
  keepsFilters R (m ≫= k).
Proof.
  intros Hm Hk w. rewrite bind_unfold, Hk. apply Hm.
Qed.

Lemma keeps_native {A} c (op : Eng R -> A * Eng R) :
  keepsFilters R (native R c op).
Proof. intros w. unfold native. destruct (op (engine R w)); reflexivity. Qed.

Lemma keeps_read h : keepsFilters R (readFilter R h).
Proof. intros w. reflexivity. Qed.

Ltac keeps :=
  repeat first
    [ apply keeps_ret
    | apply keeps_native
    | apply keeps_read
    | apply keeps_bind; [ | intros ? ]
    | match goal with
      | |- keepsFilters R (let '(_, _) := ?p in _) => destruct p
      | |- keepsFilters R (if ?b then _ else _) => destruct b
      | |- keepsFilters R (match ?s with inl _ => _ | inr _ => _ end) =>
          destruct s
      end ].

Lemma keeps_findNearestPoly this pos o :
  keepsFilters R (findNearestPoly R this pos o).
Proof. unfold findNearestPoly. keeps. Qed.

Lemma keeps_findPolysAroundCircle this r c rad o :
  keepsFilters R (findPolysAroundCircle R this r c rad o).
Proof. unfold findPolysAroundCircle. keeps. Qed.

Lemma keeps_queryPolygons this c he o :
  keepsFilters R (queryPolygons R this c he o).
Proof. unfold queryPolygons. keeps. Qed.

Lemma keeps_closestPointOnPoly r pos :
  keepsFilters R (closestPointOnPoly R r pos).
Proof. unfold closestPointOnPoly. keeps. Qed.

Lemma keeps_getClosestPoint this pos o :
  keepsFilters R (getClosestPoint R this pos o).
Proof. unfold getClosestPoint. keeps. Qed.

Lemma keeps_getRandomPointAround this pos rad o :
  keepsFilters R (getRandomPointAround R this pos rad o).
Proof. unfold getRandomPointAround. keeps. Qed.

Lemma keeps_moveAlongSurface this r s t o :
  keepsFilters R (moveAlongSurface R this r s t o).
Proof. unfold moveAlongSurface. keeps. Qed.

Lemma keeps_findRandomPoint this o :
  keepsFilters R (findRandomPoint R this o).
Proof. unfold findRandomPoint. keeps. Qed.

Lemma keeps_getPolyHeight r pos : keepsFilters R (getPolyHeight R r pos).
Proof. unfold getPolyHeight. keeps. Qed.

Lemma keeps_findPath this a b s t o :
  keepsFilters R (findPath R this a b s t o).
Proof. unfold findPath. keeps. Qed.

Lemma keeps_findStraightPath s t p o :
  keepsFilters R (findStraightPath R s t p o).
Proof. unfold findStraightPath. keeps. Qed.

Lemma keeps_computePath this s t o :
  keepsFilters R (computePath R this s t o).
Proof.
  unfold computePath.
  pose proof keeps_findNearestPoly. pose proof keeps_findPath.
  pose proof keeps_closestPointOnPoly. pose proof keeps_findStraightPath.
  repeat first
    [ apply keeps_ret
    | match goal with H : _ |- _ => apply H end
    | apply keeps_bind; [ | intros ? ]
    | match goal with
      | |- keepsFilters R (if ?b then _ else _) => destruct b
      | |- keepsFilters R (match ?s with inl _ => _ | inr _ => _ end) =>
          destruct s
      end ].
Qed.


Lemma keeps_sameFilter {A} (m : M R A) f w :
  keepsFilters R m -> sameFilter f w (exec R m w).
Proof.
  intros Hm. unfold sameFilter, run, exec, get_includeFlags, get_excludeFlags,
    getAreaCost, readFilter, filterAt.
  rewrite !bind_unfold. cbn. rewrite Hm. repeat split.
  intros i. rewrite !bind_unfold. cbn. rewrite Hm. reflexivity.
Qed.

(** C7. Every query operation leaves every filter object as it found it: the
    include flags, the exclude flags and the cost of every area read from the
    filter after the operation are those read before it, whether the filter
    was passed to the operation or not. *)
Theorem queries_leave_filters_unchanged this f w :
  (forall pos o, sameFilter f w (exec R (findNearestPoly R this pos o) w)) /\
  (forall r c rad o,
     sameFilter f w (exec R (findPolysAroundCircle R this r c rad o) w)) /\
  (forall c he o, sameFilter f w (exec R (queryPolygons R this c he o) w)) /\
  (forall a b s t o, sameFilter f w (exec R (findPath R this a b s t o) w)) /\
  (forall s t p o, sameFilter f w (exec R (findStraightPath R s t p o) w)) /\
  (forall r s t o,
     sameFilter f w (exec R (moveAlongSurface R this r s t o) w)) /\
  (forall o, sameFilter f w (exec R (findRandomPoint R this o) w)) /\
  (forall pos o, sameFilter f w (exec R (getClosestPoint R this pos o) w)) /\
  (forall pos rad o,
     sameFilter f w (exec R (getRandomPointAround R this pos rad o) w)).
Proof.
  repeat split; intros; apply keeps_sameFilter;
    auto using keeps_findNearestPoly, keeps_findPolysAroundCircle,
      keeps_queryPolygons, keeps_findPath, keeps_findStraightPath,
      keeps_moveAlongSurface, keeps_findRandomPoint, keeps_getClosestPoint,
      keeps_getRandomPointAround.
Qed.

(** ** The default filter *)

Lemma passFilter_all (flt : dtQueryFilter num) (flags : Z) :
  m_includeFlags flt = 0xffff -> m_excludeFlags flt = 0 ->
  0 < flags < 2 ^ 16 -> passFilter flt flags = true.
Proof.
  intros Hi He Hf. unfold passFilter. rewrite Hi, He.
  change 0xffff with (Z.ones 16).
  rewrite Z.land_ones by lia. rewrite Z.mod_small by lia.
  rewrite Z.land_0_r.
  destruct (Z.eqb_spec flags 0); [lia | reflexivity].
Qed.

Lemma constructed_default_filter value w :
  let '(this, w1) := NavMeshQuery_new R value w in
  m_includeFlags (filterAt R w1 (raw (defaultFilter this))) = 0xffff /\
  m_excludeFlags (filterAt R w1 (raw (defaultFilter this))) = 0.
Proof.
  unfold NavMeshQuery_new, QueryFilter_new, set_includeFlags,
    set_excludeFlags, updateFilter, newRawFilter, setEngine, filterAt.
  rewrite !bind_unfold; cbn. split.
  all: rewrite !lookup_insert_eq; reflexivity.
Qed.

(** ** Result objects *)

Lemma reportsStatus_jsResult {P} `{Fields num R P} (r : Result R P) :
  reportsStatus R (jsResult R r) = true.
Proof. reflexivity. Qed.

Lemma success_of_result {P} (st : dtStatus R) (p : P) :
  success (result R st p) = statusSucceed R st.
Proof. reflexivity. Qed.


Create HintDb methods discriminated.

#[local] Hint Unfold findNearestPoly findPolysAroundCircle queryPolygons
  closestPointOnPoly getClosestPoint getRandomPointAround moveAlongSurface
  findRandomPoint getPolyHeight findPath findStraightPath : methods.

Ltac outcome :=
  unfold explicitOutcome, run; autounfold with methods;
  rewrite ?bind_unfold; cbn;
  repeat match goal with
         | |- context [let '(_, _) := ?p in _] => destruct p
         end;
  split; reflexivity.

(** C3 (as amended). Every operation of the query object that returns a
    result object returns one with an explicit [success] and [status], for
    every outcome of the native call; [computePath] returns an explicit
    [success]; [getClosestPoint] and [getRandomPointAround] return a bare
    position [{x, y, z}], in which no status can be read. *)
Theorem operations_report_status_except_points this w :
  (forall pos o, explicitOutcome (run R (findNearestPoly R this pos o) w)) /\
  (forall r c rad o,
     explicitOutcome (run R (findPolysAroundCircle R this r c rad o) w)) /\
  (forall c he o, explicitOutcome (run R (queryPolygons R this c he o) w)) /\
  (forall r pos, explicitOutcome (run R (closestPointOnPoly R r pos) w)) /\
  (forall r s t o,
     explicitOutcome (run R (moveAlongSurface R this r s t o) w)) /\
  (forall o, explicitOutcome (run R (findRandomPoint R this o) w)) /\
  (forall r pos, explicitOutcome (run R (getPolyHeight R r pos) w)) /\
  (forall a b s t o, explicitOutcome (run R (findPath R this a b s t o) w)) /\
  (forall s t p o, explicitOutcome (run R (findStraightPath R s t p o) w)) /\
  (forall s t o,
     field R "success" (jsComputedPath R (run R (computePath R this s t o) w))
     = Some (JsBool R (computed R (run R (computePath R this s t o) w)))) /\
  (forall pos o,
     reportsStatus R (jsVector3 R (run R (getClosestPoint R this pos o) w))
     = false) /\
  (forall pos rad o,
     reportsStatus R
       (jsVector3 R (run R (getRandomPointAround R this pos rad o) w))
     = false).
Proof.
  repeat split; intros; try outcome.
Qed.

(** ** [computePath] *)

Lemma nonempty_size (l : list Z) : l <> [] -> (length l <=? 0)%nat = false.
Proof. destruct l; [congruence | reflexivity]. Qed.

(** One sub-operation of [computePath] whose outcome is known. *)
Ltac sub_operation :=
  rewrite bind_unfold;
  match goal with
  | H : ?m ?w = (_, _) |- context [?m ?w] => rewrite H
  end;
  cbn [fst snd];
  repeat match goal with
         | H : success ?r = _ |- context [success ?r] => rewrite H
         end;
  cbn [negb].

Lemma closestEnd_step end_ endRef corridor w closestEnd w4 {A}
    (k : ComputedPath R + Vector3 num -> M R A) :
  ClosestEnd R end_ endRef corridor w closestEnd w4 ->
  ((if negb (get 0 corridor (length corridor - 1) =? endRef) then
      r ← closestPointOnPoly R (get 0 corridor (length corridor - 1)) end_;
      if negb (success r) then
        mret (inl (failed R "no closest point on last polygon found"
                          (Some (status r))))
      else mret (inr (closestPoint (payload r)))
    else mret (inr {| x := x end_; y := y end_; z := z end_ |})) ≫= k) w
  = k (inr closestEnd) w4.
Proof.
  intros [Hne Hlast | r w' Hne Hlast Hcall Hok].
  - apply Z.eqb_eq in Hlast. rewrite Hlast. rewrite bind_unfold. reflexivity.
  - apply Z.eqb_neq in Hlast. rewrite Hlast. cbn [negb].
    rewrite !bind_unfold, Hcall. cbn [fst snd]. rewrite Hok. reflexivity.
Qed.

(** C2. Whichever sub-operation of [computePath] is the first to fail
    (nearest polygon of the start, nearest polygon of the end, corridor
    search, closest point on the last corridor polygon, string pulling),
    [computePath] returns [success = false], an error carrying that
    sub-operation's status, and an empty path, in the world that the failing
    sub-operation left: no later sub-operation is invoked. *)
Theorem computePath_short_circuits this start end_ options w st w' :
  FirstFailure R this start end_ options w st w' ->
  exists name_,
    computePath R this start end_ options w
    = ({| computed := false;
          error := Some {| name := name_; error_status := Some st |};
          path := [] |}, w').
Proof.
  intros Hfail. unfold computePath.
  destruct Hfail as
    [ r1 w1 H1 S1
    | r1 w1 r2 w2 H1 S1 H2 S2
    | r1 w1 r2 w2 r3 w3 H1 S1 H2 S2 H3 S3
    | r1 w1 r2 w2 r3 w3 r4 w4 H1 S1 H2 S2 H3 S3 Hne Hlast H4 S4
    | r1 w1 r2 w2 r3 w3 closestEnd w4 r5 w5 H1 S1 H2 S2 H3 S3 Hend H5 S5 ].
  - sub_operation. eexists; reflexivity.
  - do 2 sub_operation. eexists; reflexivity.
  - do 3 sub_operation. eexists; reflexivity.
  - do 3 sub_operation. rewrite (nonempty_size _ Hne).
    apply Z.eqb_neq in Hlast. rewrite Hlast. cbn [negb].
    rewrite !bind_unfold, H4. cbn [fst snd]. rewrite S4.
    eexists; reflexivity.
  - do 3 sub_operation.
    assert (Hne : polys (payload r3) <> []) by (destruct Hend; assumption).
    rewrite (nonempty_size _ Hne).
    rewrite (closestEnd_step _ _ _ _ _ _ _ Hend).
    sub_operation. eexists; reflexivity.
Qed.

Lemma length_formatPoints (sp : list num) n :
  length (formatPoints sp n) = n.
Proof. unfold formatPoints. rewrite length_map. apply length_seq. Qed.

Lemma lookup_formatPoints (sp : list num) n (i : nat) :
  (i < n)%nat ->
  formatPoints sp n !! i
  = Some {| x := get num_zero sp (3 * i);
            y := get num_zero sp (3 * i + 1);
            z := get num_zero sp (3 * i + 2) |}.
Proof.
  intros Hi. unfold formatPoints. rewrite list_lookup_fmap.
  rewrite lookup_seq_lt by exact Hi. cbn. unfold pointAt.
  replace (i * 3)%nat with (3 * i)%nat by lia. reflexivity.
Qed.

(** ** Bounded range queries: the arrays have the reported length *)

Lemma queryPolygons_lengths this c he o w :
  let r := run R (queryPolygons R this c he o) w in
  length (polyRefs (payload r)) = polyCount (payload r).
Proof.
  unfold run, queryPolygons. rewrite !bind_unfold, native_unfold. cbn.
  match goal with
  | |- context [raw_queryPolygons R ?a ?b ?c ?d ?e ?f] =>
      destruct (raw_queryPolygons R a b c d e f) as [[[st refs] count] e']
  end.
  cbn. apply length_array.
Qed.

Lemma findPolysAroundCircle_lengths this ref c rad o w :
  let r := run R (findPolysAroundCircle R this ref c rad o) w in
  length (resultRefs (payload r)) = resultCount (payload r) /\
  length (resultParents (payload r)) = resultCount (payload r).
Proof.
  unfold run, findPolysAroundCircle. rewrite !bind_unfold, native_unfold. cbn.
  match goal with
  | |- context [raw_findPolysAroundCircle R ?a ?b ?c ?d ?e ?f ?g ?h] =>
      destruct (raw_findPolysAroundCircle R a b c d e f g h)
        as [[[[[st refs] parents] cost] count] e']
  end.
  cbn. split; apply length_array.
Qed.

End WrapperFacts.

(** * Properties of the wrapper over the engine of the specification *)

Section EngineFacts.

Context {num : Type} {NO : NumOps num} {NB : NumBits num}.
Context (mesh : MeshStore num).

#[local] Abbreviation R := (specRaw mesh).

Implicit Types (w : World R) (this : NavMeshQuery num) (e : Engine num).


(** ** Corridor search between a polygon and itself *)

(** C4. For a polygon reference [A] of the store that the filter in force
    does not exclude, and a path bound of at least one polygon (such as the
    default of 256), [findPath(A, A, p, p)] succeeds and its corridor is
    exactly [[A]]. *)
Theorem findPath_same_polygon this w A poly p o :
  A <> 0 ->
  ms_polys mesh !! A = Some poly ->
  passFilter (filterAt R w (filterRaw this (o ≫= bo_filter)))
             (poly_flags poly) = true ->
  (1 <= default 256 (o ≫= bo_max))%nat ->
  let r := run R (findPath R this A A p p o) w in
  success r = true /\ polys (payload r) = [A].
Proof.
  intros Hnz Hpoly Hpass Hmax.
  unfold run, findPath. rewrite !bind_unfold, native_unfold.
  cbn [fst snd readFilter]. cbn [raw_findPath R specRaw].
  unfold corridorSearch, passable. rewrite Hpoly, Hpass.
  apply Z.eqb_neq in Hnz. rewrite Hnz. cbn [negb andb].
  rewrite Z.eqb_refl. cbn [fst snd].
  destruct (default 256%nat (o ≫= bo_max)) as [|n]; [lia|].
  split; [reflexivity|]. cbn. rewrite take_nil. reflexivity.
Qed.

(** ** Bounded range queries *)

(** C5. The box query and the circle query return at most [maxPolys]
    polygons (256 when the caller gives no bound), and the returned reference
    arrays (and the parent array of the circle query) have exactly the
    reported count as their length, however many polygons match. *)
Theorem range_queries_bounded this w :
  (forall c he o,
     let r := run R (queryPolygons R this c he o) w in
     (polyCount (payload r) <= default 256 (o ≫= bo_max))%nat /\
     length (polyRefs (payload r)) = polyCount (payload r)) /\
  (forall ref c rad o,
     let r := run R (findPolysAroundCircle R this ref c rad o) w in
     (resultCount (payload r) <= default 256 (o ≫= bo_max))%nat /\
     length (resultRefs (payload r)) = resultCount (payload r) /\
     length (resultParents (payload r)) = resultCount (payload r)).
Proof.
  split.
  - intros c he o r. split; [| apply queryPolygons_lengths].
    subst r. unfold run, queryPolygons.
    rewrite !bind_unfold, native_unfold. cbn.
    rewrite length_take. lia.
  - intros ref c rad o r. split; [| apply findPolysAroundCircle_lengths].
    subst r. unfold run, findPolysAroundCircle.
    rewrite !bind_unfold, native_unfold.
    cbn [fst snd readFilter raw_findPolysAroundCircle R specRaw].
    unfold queryPolygonsInCircle.
    destruct (negb (passable mesh _ ref)); [cbn; lia|].
    destruct (expand _ _ _ _ _ _ _ _) as [s reached].
    cbn. rewrite length_take. lia.
Qed.

(** ** Area costs *)

Lemma filterAt_update h g w k :
  filterAt R (updateFilter R h g w).2 k
  = if decide (h = k) then g (filterAt R w h) else filterAt R w k.
Proof.
  unfold updateFilter, filterAt. cbn. rewrite lookup_insert.
  destruct (decide (h = k)); reflexivity.
Qed.

Lemma getAreaCost_run (f : QueryFilter) i w :
  run R (getAreaCost R f i) w
  = dtQueryFilter_getAreaCost i (filterAt R w (raw f)).
Proof. unfold run, getAreaCost. rewrite bind_unfold. reflexivity. Qed.

Lemma flags_run (f : QueryFilter) w :
  run R (get_includeFlags R f) w = m_includeFlags (filterAt R w (raw f)) /\
  run R (get_excludeFlags R f) w = m_excludeFlags (filterAt R w (raw f)).
Proof.
  unfold run, get_includeFlags, get_excludeFlags.
  split; rewrite bind_unfold; reflexivity.
Qed.

(** C8 (as amended). [setAreaCost] returns nothing, whatever the area id: no
    error is reported to the caller.  With an id in 0..63 the cost is
    stored, as a 32-bit float, and read back; the cost of every other id and
    both flag masks are left as they were.  A filter that was just created
    reads 1.0 for every area id in 0..63. *)
Theorem setAreaCost_returns_nothing (f : QueryFilter) (i : Z) (cost : num) w :
  run R (setAreaCost R f i cost) w = tt /\
  (0 <= i < 64 ->
   let w' := exec R (setAreaCost R f i cost) w in
   run R (getAreaCost R f i) w' = num_fround cost /\
   (forall j, j <> i ->
      run R (getAreaCost R f j) w' = run R (getAreaCost R f j) w) /\
   run R (get_includeFlags R f) w' = run R (get_includeFlags R f) w /\
   run R (get_excludeFlags R f) w' = run R (get_excludeFlags R f) w) /\
  (forall j, 0 <= j < 64 ->
     let '(fresh, w1) := QueryFilter_new R None w in
     run R (getAreaCost R fresh j) w1 = num_one).
Proof.
  split; [destruct (run R (setAreaCost R f i cost) w); reflexivity|].
  split.
  - intros Hi w'. subst w'. unfold exec, setAreaCost.
    set (w' := (updateFilter R (raw f) (dtQueryFilter_setAreaCost i cost)
                  w).2).
    assert (Hf : filterAt R w' (raw f)
                 = dtQueryFilter_setAreaCost i cost (filterAt R w (raw f))).
    { subst w'. rewrite filterAt_update, decide_True by reflexivity.
      reflexivity. }
    assert (Hset : dtQueryFilter_setAreaCost i cost (filterAt R w (raw f))
                   = {| m_includeFlags := m_includeFlags (filterAt R w (raw f));
                        m_excludeFlags := m_excludeFlags (filterAt R w (raw f));
                        m_areaCost := fun j =>
                          if j =? i then num_fround cost
                          else m_areaCost (filterAt R w (raw f)) j |}).
    { unfold dtQueryFilter_setAreaCost, DT_MAX_AREAS.
      destruct (Z.eqb_spec i 64); [lia | reflexivity]. }
    destruct (flags_run f w) as [Ei Ee].
    destruct (flags_run f w') as [Ei' Ee'].
    rewrite Ei, Ee, Ei', Ee', Hf, Hset. cbn [m_includeFlags m_excludeFlags].
    split; [| split; [| split; reflexivity]].
    + rewrite getAreaCost_run, Hf, Hset.
      unfold dtQueryFilter_getAreaCost, DT_MAX_AREAS.
      destruct (Z.eqb_spec i 64); [lia|].
      cbn. rewrite Z.eqb_refl. reflexivity.
    + intros j Hj. rewrite !getAreaCost_run, Hf, Hset.
      unfold dtQueryFilter_getAreaCost.
      destruct (j =? DT_MAX_AREAS); [reflexivity|]. cbn.
      destruct (Z.eqb_spec j i); [contradiction | reflexivity].
  - intros j Hj. unfold QueryFilter_new. rewrite bind_unfold. cbn.
    rewrite getAreaCost_run. unfold filterAt. cbn.
    rewrite lookup_insert_eq. cbn.
    unfold dtQueryFilter_getAreaCost, DT_MAX_AREAS. cbn.
    destruct (Z.eqb_spec j 64) as [E|_]; [lia|].
    destruct (Z.leb_spec 0 j); [|lia]. destruct (Z.ltb_spec j 64); [|lia].
    reflexivity.
Qed.

(** ** The search needs no more expansions than the pool has nodes *)

Lemma lowest_in (p : gmap Z (Node num)) rest :
  forall first, lowest p first rest ∈ first :: rest.
Proof.
  unfold lowest. induction rest as [|r rest IH]; intros first; cbn.
  - apply list_elem_of_here.
  - destruct (num_ltb _ _).
    + apply list_elem_of_further, IH.
    + specialize (IH first). apply elem_of_cons in IH as [->|Hin].
      * apply list_elem_of_here.
      * do 2 apply list_elem_of_further. exact Hin.
Qed.

Lemma length_removeFirst r (l : list Z) :
  r ∈ l -> S (length (removeFirst r l)) = length l.
Proof.
  induction l as [|q l IH]; intros Hin; [inversion Hin|].
  cbn. destruct (Z.eqb_spec q r) as [->|Hne]; [reflexivity|].
  apply elem_of_cons in Hin as [->|Hin]; [congruence|].
  cbn. rewrite IH by exact Hin. reflexivity.
Qed.

Lemma removeFirst_subset r (l : list Z) k : k ∈ removeFirst r l -> k ∈ l.
Proof.
  induction l as [|q l IH]; cbn; [auto|].
  destruct (q =? r); intros Hin.
  - apply list_elem_of_further, Hin.
  - apply elem_of_cons in Hin as [->|Hin].
    + apply list_elem_of_here.
    + apply list_elem_of_further, IH, Hin.
Qed.

Lemma popLowest_in (p : gmap Z (Node num)) o cur rest :
  popLowest p o = Some (cur, rest) ->
  cur ∈ o /\ S (length rest) = length o /\ forall k, k ∈ rest -> k ∈ o.
Proof.
  destruct o as [|first o]; [discriminate|]. cbn [popLowest].
  intros [= <- <-]. pose proof (lowest_in p o first) as Hin.
  split; [exact Hin|].
  split; [exact (length_removeFirst _ (first :: o) Hin)|].
  intros k. exact (removeFirst_subset _ (first :: o) k).
Qed.

Lemma size_insert_present (p : gmap Z (Node num)) k n0 n :
  p !! k = Some n0 -> size (<[k := n]> p) = size p.
Proof. intros Hk. apply map_size_insert_Some. eauto. Qed.

Lemma relax_accounted admitted estimate flt capacity cur ncur s nb :
  accounted capacity s ->
  accounted capacity (relax mesh admitted estimate flt capacity cur ncur s nb)
  /\ closedOrder (relax mesh admitted estimate flt capacity cur ncur s nb)
     = closedOrder s.
Proof.
  intros (Hsize & Hopen & Hcap). unfold relax.
  destruct (negb _); [repeat split; assumption|].
  destruct (pool s !! nb) as [n|] eqn:Hnb.
  - destruct (node_closed n); [repeat split; assumption|].
    destruct (num_ltb _ _); [| repeat split; assumption].
    cbn.
    repeat split; cbn.
    + rewrite (size_insert_present _ _ _ _ Hnb). exact Hsize.
    + intros k Hk. rewrite lookup_insert. destruct (decide (nb = k)); eauto.
    + rewrite (size_insert_present _ _ _ _ Hnb). exact Hcap.
  - destruct (Nat.leb_spec capacity (size (pool s))) as [Hfull|Hroom].
    + repeat split; assumption.
    + cbn. repeat split; cbn.
      * rewrite map_size_insert_None by exact Hnb.
        rewrite length_app. cbn. lia.
      * intros k Hk. rewrite lookup_insert.
        destruct (decide (nb = k)); [eauto|].
        apply elem_of_app in Hk as [Hk|Hk]; [apply Hopen, Hk|].
        apply list_elem_of_singleton in Hk. congruence.
      * rewrite map_size_insert_None by exact Hnb. lia.
Qed.

Lemma relax_all_accounted admitted estimate flt capacity cur ncur nbs :
  forall s, accounted capacity s ->
  accounted capacity
    (foldl (relax mesh admitted estimate flt capacity cur ncur) s nbs)
  /\ closedOrder
       (foldl (relax mesh admitted estimate flt capacity cur ncur) s nbs)
     = closedOrder s.
Proof.
  induction nbs as [|nb nbs IH]; intros s Hs;
    [split; [exact Hs | reflexivity]|].
  cbn.
  destruct (relax_accounted admitted estimate flt capacity cur ncur s nb Hs)
    as [Hacc Hclosed].
  destruct (IH _ Hacc) as [Hacc' Hclosed'].
  split; [exact Hacc' | congruence].
Qed.

Lemma close_accounted capacity cur n rest s :
  accounted capacity s ->
  popLowest (pool s) (open s) = Some (cur, rest) ->
  pool s !! cur = Some n ->
  accounted capacity (close cur n rest s).
Proof.
  intros (Hsize & Hopen & Hcap) Hpop Hcur.
  apply popLowest_in in Hpop as (_ & Hlen & Hsub).
  assert (Hsame : size (pool (close cur n rest s)) = size (pool s))
    by (cbn; apply (size_insert_present _ _ _ _ Hcur)).
  repeat split.
  - rewrite Hsame. cbn. rewrite length_app. cbn. lia.
  - intros k Hk. cbn. rewrite lookup_insert.
    destruct (decide (cur = k)); [eauto | apply Hopen, Hsub, Hk].
  - rewrite Hsame. exact Hcap.
Qed.

(** Fuel beyond what is left of the pool changes nothing: the open set is
    empty by then. *)
Lemma expand_more_fuel admitted estimate flt capacity goal fuel :
  forall extra s,
  accounted capacity s ->
  (Nat.max 1 capacity - length (closedOrder s) <= fuel)%nat ->
  expand mesh admitted estimate flt capacity (fuel + extra) goal s
  = expand mesh admitted estimate flt capacity fuel goal s.
Proof.
  induction fuel as [|fuel IH]; intros extra s Hacc Hleft.
  - destruct Hacc as (Hsize & _ & Hcap).
    assert (Hopen : open s = []) by (apply length_zero_iff_nil; lia).
    destruct extra; [reflexivity|]. cbn. rewrite Hopen. reflexivity.
  - cbn [Nat.add expand].
    destruct (popLowest (pool s) (open s)) as [[cur rest]|] eqn:Hpop;
      [| reflexivity].
    destruct (pool s !! cur) as [n|] eqn:Hcur; [| reflexivity].
    destruct (cur =? goal); [reflexivity|].
    pose proof (close_accounted capacity cur n rest s Hacc Hpop Hcur) as Hc.
    destruct (relax_all_accounted admitted estimate flt capacity cur n
                (linksOf mesh cur) _ Hc) as [Hacc' Hclosed'].
    apply IH; [exact Hacc'|].
    rewrite Hclosed'. cbn. rewrite length_app. cbn. lia.
Qed.

Lemma startSearch_accounted estimate capacity startRef :
  accounted capacity (startSearch estimate startRef).
Proof.
  repeat split; cbn.
  - apply map_size_singleton.
  - intros k Hk. apply list_elem_of_singleton in Hk as ->.
    rewrite lookup_singleton_eq. eauto.
  - rewrite map_size_singleton. lia.
Qed.

(** The fuel that the corridor search and the circle query give to the
    expansion is enough: more of it yields the same search. *)
Lemma expand_fuel_enough admitted estimate flt capacity goal startRef extra :
  expand mesh admitted estimate flt capacity (S capacity + extra) goal
    (startSearch estimate startRef)
  = expand mesh admitted estimate flt capacity (S capacity) goal
      (startSearch estimate startRef).
Proof.
  apply expand_more_fuel; [apply startSearch_accounted|]. cbn. lia.
Qed.

(** ** Corridors name polygons of the store *)











(** ** Straight paths *)





End EngineFacts.

(** * The properties on the flat two-by-two mesh *)

Section FlatFacts.

Import Flat.

Lemma paired {A B} (p : A * B) : p = (p.1, p.2).
Proof. destruct p; reflexivity. Qed.




(** A start on the mesh and an end far from it: the second nearest-polygon
    query is the first sub-operation to fail, and [computePath] stops
    there. *)
Lemma computePath_short_circuits_flat :
  let afterStart :=
    exec module (findNearestPoly module query (at_ 5 5)
                   (nearestOptions query None)) w1 in
  let afterEnd :=
    exec module (findNearestPoly module query (at_ 100 100)
                   (nearestOptions query None)) afterStart in
  calls module afterEnd
  = [CallFindNearestPoly [5; 0; 5] [1; 1; 1] 0%nat;
     CallFindNearestPoly [100; 0; 100] [1; 1; 1] 0%nat] /\
  exists name_,
    computePath module query (at_ 5 5) (at_ 100 100) None w1
    = (failed module name_ (Some (Failed NoNearbyPolygon : dtStatus module)),
       afterEnd).
Proof.
  intros afterStart afterEnd.
  split; [vm_compute; reflexivity|].
  apply (computePath_short_circuits module query (at_ 5 5) (at_ 100 100)
           None w1 (Failed NoNearbyPolygon)).
  refine (EndNearestFails module query (at_ 5 5) (at_ 100 100) None w1
            (run module (findNearestPoly module query (at_ 5 5)
                           (nearestOptions query None)) w1)
            afterStart
            (run module (findNearestPoly module query (at_ 100 100)
                           (nearestOptions query None)) afterStart)
            afterEnd _ _ _ _).
  - apply paired.
  - vm_compute; reflexivity.
  - apply paired.
  - vm_compute; reflexivity.
Defined.

(** [getClosestPoint] at the centre of quad (0,0) hands back the position
    [{x: 5, y: 0, z: 5}] and nothing else: there is no [success] and no
    [status] to read in it. *)
Lemma getClosestPoint_reports_no_status_flat :
  let v := run module (getClosestPoint module query (at_ 5 5) None) w1 in
  jsVector3 module v
  = JsObject module [("x", JsNumber module 5); ("y", JsNumber module 0);
                     ("z", JsNumber module 5)] /\
  field module "success" (jsVector3 module v) = None /\
  field module "status" (jsVector3 module v) = None /\
  reportsStatus module (jsVector3 module v) = false.
Proof. repeat split. Qed.

(** Polygon 1 to itself. *)
Lemma findPath_same_polygon_flat :
  let r := run module (findPath module query 1 1 (at_ 5 5) (at_ 5 5) None) w1 in
  success r = true /\ polys (payload r) = [1].
Proof.
  apply (findPath_same_polygon mesh query w1 1 (quad [2; 3]) (at_ 5 5) None).
  - lia.
  - vm_compute; reflexivity.
  - vm_compute; reflexivity.
  - vm_compute; lia.
Defined.

End FlatFacts.

(** * Further properties of the wrapper, for any native module *)

Section WrapperCalls.

Context {num : Type} {NO : NumOps num} {NB : NumBits num}.
Context (R : RawModule num).

Implicit Types (w : World R) (this : NavMeshQuery num).

(** ** Each method is one native call *)

Lemma calls_findNearestPoly this pos o w :
  calls R (findNearestPoly R this pos o w).2
  = calls R w
    ++ [CallFindNearestPoly (vec3_toArray pos)
          (vec3_toArray
             (default (defaultQueryHalfExtents this) (o ≫= so_halfExtents)))
          (filterRaw this (o ≫= so_filter))].
Proof.
  unfold findNearestPoly. rewrite !bind_unfold, native_unfold. cbn.
  repeat match goal with
         | |- context [let '(_, _) := ?p in _] => destruct p
         end.
  reflexivity.
Qed.

Lemma calls_findPath this a b s t o w :
  calls R (findPath R this a b s t o w).2
  = calls R w
    ++ [CallFindPath a b (vec3_toArray s) (vec3_toArray t)
          (filterRaw this (o ≫= bo_filter)) (default 256%nat (o ≫= bo_max))].
Proof.
  unfold findPath. rewrite !bind_unfold, native_unfold. cbn.
  repeat match goal with
         | |- context [let '(_, _) := ?p in _] => destruct p
         end.
  reflexivity.
Qed.

Lemma calls_closestPointOnPoly r pos w :
  calls R (closestPointOnPoly R r pos w).2
  = calls R w ++ [CallClosestPointOnPoly r (vec3_toArray pos)].
Proof.
  unfold closestPointOnPoly. rewrite !bind_unfold, native_unfold. cbn.
  repeat match goal with
         | |- context [let '(_, _) := ?p in _] => destruct p
         end.
  reflexivity.
Qed.

Lemma calls_findStraightPath s t p o w :
  calls R (findStraightPath R s t p o w).2
  = calls R w
    ++ [CallFindStraightPath (vec3_toArray s) (vec3_toArray t) p
          (default 256%nat (o ≫= sp_maxStraightPathPoints))
          (default 0 (o ≫= sp_straightPathOptions))].
Proof.
  unfold findStraightPath. rewrite !bind_unfold, native_unfold. cbn.
  repeat match goal with
         | |- context [let '(_, _) := ?p in _] => destruct p
         end.
  reflexivity.
Qed.

(** ** Each method is the native call it makes *)

Lemma findNearestPoly_native this pos o w :
  let c := vec3_toArray pos in
  let he :=
    vec3_toArray
      (default (defaultQueryHalfExtents this) (o ≫= so_halfExtents)) in
  let h := filterRaw this (o ≫= so_filter) in
  findNearestPoly R this pos o w
  = viaFilter R h (CallFindNearestPoly c he h) (raw_findNearestPoly R c he)
      (fun '(st, ref, pt, over) =>
         result R st {| nearestRef := ref; nearestPoint := vec3_fromRaw pt;
                        isOverPoly := over |}) w.
Proof.
  unfold findNearestPoly, viaFilter. rewrite !bind_unfold, native_unfold.
  cbn [fst snd readFilter].
  destruct (raw_findNearestPoly R _ _ _ _) as [[[[st ref] pt] over] e].
  reflexivity.
Qed.

Lemma getClosestPoint_native this pos o w :
  let c := vec3_toArray pos in
  let he :=
    vec3_toArray
      (default (defaultQueryHalfExtents this) (o ≫= so_halfExtents)) in
  let h := filterRaw this (o ≫= so_filter) in
  getClosestPoint R this pos o w
  = viaFilter R h (CallGetClosestPoint c he h) (raw_getClosestPoint R c he)
      vec3_fromRaw w.
Proof.
  unfold getClosestPoint, viaFilter. rewrite !bind_unfold, native_unfold.
  cbn [fst snd readFilter].
  destruct (raw_getClosestPoint R _ _ _ _) as [pt e].
  reflexivity.
Qed.

Lemma getRandomPointAround_native this pos rad o w :
  let c := vec3_toArray pos in
  let he :=
    vec3_toArray
      (default (defaultQueryHalfExtents this) (o ≫= so_halfExtents)) in
  let h := filterRaw this (o ≫= so_filter) in
  getRandomPointAround R this pos rad o w
  = viaFilter R h (CallGetRandomPointAround c rad he h)
      (raw_getRandomPointAround R c rad he) vec3_fromRaw w.
Proof.
  unfold getRandomPointAround, viaFilter.
  rewrite !bind_unfold, native_unfold. cbn [fst snd readFilter].
  destruct (raw_getRandomPointAround R _ _ _ _ _) as [pt e].
  reflexivity.
Qed.

Lemma findPolysAroundCircle_native this r c rad o w :
  let h := filterRaw this (o ≫= bo_filter) in
  let n := default 256%nat (o ≫= bo_max) in
  let buffer := resize 0 n [] in
  findPolysAroundCircle R this r c rad o w
  = viaFilter R h (CallFindPolysAroundCircle r (vec3_toArray c) rad h n)
      (fun flt =>
         raw_findPolysAroundCircle R r (vec3_toArray c) rad flt buffer buffer
           n)
      (fun '(st, refs, parents, cost, count) =>
         result R st {| resultRefs := array (get 0 refs) count;
                        resultParents := array (get 0 parents) count;
                        resultCost := cost; resultCount := count |}) w.
Proof.
  unfold findPolysAroundCircle, viaFilter.
  rewrite !bind_unfold, native_unfold. cbn [fst snd readFilter].
  destruct (raw_findPolysAroundCircle R _ _ _ _ _ _ _ _)
    as [[[[[st refs] parents] cost] count] e].
  reflexivity.
Qed.

Lemma queryPolygons_native this c he o w :
  let h := filterRaw this (o ≫= bo_filter) in
  let n := default 256%nat (o ≫= bo_max) in
  queryPolygons R this c he o w
  = viaFilter R h
      (CallQueryPolygons (vec3_toArray c) (vec3_toArray he) h n)
      (fun flt =>
         raw_queryPolygons R (vec3_toArray c) (vec3_toArray he) flt
           (resize 0 n []) n)
      (fun '(st, refs, count) =>
         result R st {| polyRefs := array (get 0 refs) count;
                        polyCount := count |}) w.
Proof.
  unfold queryPolygons, viaFilter.
  rewrite !bind_unfold, native_unfold. cbn [fst snd readFilter].
  destruct (raw_queryPolygons R _ _ _ _ _ _) as [[[st refs] count] e].
  reflexivity.
Qed.

Lemma moveAlongSurface_native this r s t o w :
  let h := filterRaw this (o ≫= bo_filter) in
  let n := default 256%nat (o ≫= bo_max) in
  moveAlongSurface R this r s t o w
  = viaFilter R h
      (CallMoveAlongSurface r (vec3_toArray s) (vec3_toArray t) h n)
      (fun flt =>
         raw_moveAlongSurface R r (vec3_toArray s) (vec3_toArray t) flt [] n)
      (fun '(st, pos, vis) =>
         result R st {| resultPosition := vec3_fromRaw pos;
                        visited := array (get 0 vis) (length vis) |}) w.
Proof.
  unfold moveAlongSurface, viaFilter.
  rewrite !bind_unfold, native_unfold. cbn [fst snd readFilter].
  destruct (raw_moveAlongSurface R _ _ _ _ _ _ _) as [[[st pos] vis] e].
  reflexivity.
Qed.

Lemma findRandomPoint_native this o w :
  let h := filterRaw this (o ≫= fo_filter) in
  findRandomPoint R this o w
  = viaFilter R h (CallFindRandomPoint h) (raw_findRandomPoint R)
      (fun '(st, ref, pt) =>
         result R st {| randomPolyRef := ref;
                        randomPoint := vec3_fromRaw pt |}) w.
Proof.
  unfold findRandomPoint, viaFilter.
  rewrite !bind_unfold, native_unfold. cbn [fst snd readFilter].
  destruct (raw_findRandomPoint R _ _) as [[[st ref] pt] e].
  reflexivity.
Qed.

Lemma findPath_native this a b s t o w :
  let h := filterRaw this (o ≫= bo_filter) in
  let n := default 256%nat (o ≫= bo_max) in
  findPath R this a b s t o w
  = viaFilter R h
      (CallFindPath a b (vec3_toArray s) (vec3_toArray t) h n)
      (fun flt =>
         raw_findPath R a b (vec3_toArray s) (vec3_toArray t) flt
           (resize 0 n []) n)
      (fun '(st, ps) => result R st {| polys := ps |}) w.
Proof.
  unfold findPath, viaFilter.
  rewrite !bind_unfold, native_unfold. cbn [fst snd readFilter].
  destruct (raw_findPath R _ _ _ _ _ _ _ _) as [[st ps] e].
  reflexivity.
Qed.

Lemma closestPointOnPoly_native r pos w :
  let out := raw_closestPointOnPoly R r (vec3_toArray pos) (engine R w) in
  closestPointOnPoly R r pos w
  = (result R out.1.1.1 {| closestPoint := vec3_fromRaw out.1.1.2;
                           posOverPoly := out.1.2 |},
     {| filters := filters R w; engine := out.2;
        calls := calls R w ++ [CallClosestPointOnPoly r (vec3_toArray pos)] |}).
Proof.
  unfold closestPointOnPoly. rewrite !bind_unfold, native_unfold.
  cbn [fst snd].
  destruct (raw_closestPointOnPoly R _ _ _) as [[[st pt] over] e].
  reflexivity.
Qed.

Lemma findStraightPath_native s t p o w :
  let n := default 256%nat (o ≫= sp_maxStraightPathPoints) in
  let opts := default 0 (o ≫= sp_straightPathOptions) in
  let out :=
    raw_findStraightPath R (vec3_toArray s) (vec3_toArray t) p
      (resize num_zero (n * 3) []) (resize 0 n []) (resize 0 n []) n opts
      (engine R w) in
  findStraightPath R s t p o w
  = (result R out.1.1.1.1.1
       {| straightPath := out.1.1.1.1.2; straightPathFlags := out.1.1.1.2;
          straightPathRefs := out.1.1.2; straightPathCount := out.1.2 |},
     {| filters := filters R w; engine := out.2;
        calls := calls R w
                 ++ [CallFindStraightPath (vec3_toArray s) (vec3_toArray t) p
                       n opts] |}).
Proof.
  unfold findStraightPath. rewrite !bind_unfold, native_unfold.
  cbn [fst snd].
  destruct (raw_findStraightPath R _ _ _ _ _ _ _ _ _)
    as [[[[[st pts] flags] refs] count] e].
  reflexivity.
Qed.

Lemma findNearestPoly_raw this pos o w :
  let c := vec3_toArray pos in
  let he :=
    vec3_toArray
      (default (defaultQueryHalfExtents this) (o ≫= so_halfExtents)) in
  let h := filterRaw this (o ≫= so_filter) in
  let out := raw_findNearestPoly R c he (filterAt R w h) (engine R w) in
  findNearestPoly R this pos o w
  = (result R out.1.1.1.1
       {| nearestRef := out.1.1.1.2; nearestPoint := vec3_fromRaw out.1.1.2;
          isOverPoly := out.1.2 |},
     {| filters := filters R w; engine := out.2;
        calls := calls R w ++ [CallFindNearestPoly c he h] |}).
Proof.
  cbv zeta. rewrite findNearestPoly_native. unfold viaFilter.
  destruct (raw_findNearestPoly R _ _ _ _) as [[[[st ref] pt] over] e].
  reflexivity.
Qed.

Lemma findPath_raw this a b s t o w :
  let h := filterRaw this (o ≫= bo_filter) in
  let n := default 256%nat (o ≫= bo_max) in
  let out :=
    raw_findPath R a b (vec3_toArray s) (vec3_toArray t) (filterAt R w h)
      (resize 0 n []) n (engine R w) in
  findPath R this a b s t o w
  = (result R out.1.1 {| polys := out.1.2 |},
     {| filters := filters R w; engine := out.2;
        calls := calls R w
                 ++ [CallFindPath a b (vec3_toArray s) (vec3_toArray t) h n] |}).
Proof.
  cbv zeta. rewrite findPath_native. unfold viaFilter.
  destruct (raw_findPath R _ _ _ _ _ _ _ _) as [[st ps] e].
  reflexivity.
Qed.

(** ** [computePath], branch by branch *)

Lemma computePath_unfold this s t o w :
  let n1 := findNearestPoly R this s (nearestOptions this o) w in
  let n2 := findNearestPoly R this t (nearestOptions this o) n1.2 in
  let startRef := nearestRef (payload n1.1) in
  let endRef := nearestRef (payload n2.1) in
  let fp := findPath R this startRef endRef s t (corridorOptions this o) n2.2 in
  let corridor := polys (payload fp.1) in
  let cp := closestPointOnPoly R (lastOf corridor) t fp.2 in
  let closestEnd :=
    if lastOf corridor =? endRef then {| x := x t; y := y t; z := z t |}
    else closestPoint (payload cp.1) in
  let sp :=
    findStraightPath R s closestEnd corridor (straightOptions o)
      (if lastOf corridor =? endRef then fp.2 else cp.2) in
  computePath R this s t o w
  = if negb (success n1.1) then
      (failed R "findNearestPoly for start position failed"
         (Some (status n1.1)), n1.2)
    else if negb (success n2.1) then
      (failed R "findNearestPoly for end position failed"
         (Some (status n2.1)), n2.2)
    else if negb (success fp.1) then
      (failed R "findPath unsuccessful" (Some (status fp.1)), fp.2)
    else if (length corridor <=? 0)%nat then
      (failed R "no polygon path found" None, fp.2)
    else if negb (lastOf corridor =? endRef) && negb (success cp.1) then
      (failed R "no closest point on last polygon found"
         (Some (status cp.1)), cp.2)
    else if negb (success sp.1) then
      (failed R "findStraightPath unsuccessful" (Some (status sp.1)), sp.2)
    else
      ({| computed := true; error := None;
          path := formatPoints (straightPath (payload sp.1))
                    (straightPathCount (payload sp.1)) |}, sp.2).
Proof.
  intros n1 n2 startRef endRef fp corridor cp closestEnd sp.
  unfold computePath. rewrite bind_unfold. fold n1.
  destruct (success n1.1); cbn [negb]; [| reflexivity].
  rewrite bind_unfold. fold n2.
  destruct (success n2.1); cbn [negb]; [| reflexivity].
  rewrite bind_unfold. fold startRef endRef fp.
  destruct (success fp.1); cbn [negb]; [| reflexivity].
  fold corridor.
  destruct (length corridor <=? 0)%nat; [reflexivity|].
  fold (lastOf corridor). subst sp closestEnd.
  destruct (lastOf corridor =? endRef); cbn [negb andb].
  - rewrite bind_unfold. cbn [mret M_ret fst snd]. rewrite bind_unfold.
    match goal with
    | |- context [findStraightPath R ?a ?b ?c ?d ?e] =>
        set (q := findStraightPath R a b c d e)
    end.
    destruct (success q.1); reflexivity.
  - rewrite !bind_unfold. fold cp.
    destruct (success cp.1); cbn [negb mret M_ret fst snd]; [| reflexivity].
    rewrite bind_unfold.
    match goal with
    | |- context [findStraightPath R ?a ?b ?c ?d ?e] =>
        set (q := findStraightPath R a b c d e)
    end.
    destruct (success q.1); reflexivity.
Qed.

Lemma success_findNearestPoly this pos o w :
  success (findNearestPoly R this pos o w).1
  = statusSucceed R (status (findNearestPoly R this pos o w).1).
Proof.
  unfold findNearestPoly. rewrite !bind_unfold, native_unfold. cbn.
  repeat match goal with
         | |- context [let '(_, _) := ?p in _] => destruct p
         end.
  reflexivity.
Qed.

Lemma success_findPath this a b s t o w :
  success (findPath R this a b s t o w).1
  = statusSucceed R (status (findPath R this a b s t o w).1).
Proof.
  unfold findPath. rewrite !bind_unfold, native_unfold. cbn.
  repeat match goal with
         | |- context [let '(_, _) := ?p in _] => destruct p
         end.
  reflexivity.
Qed.

Lemma success_closestPointOnPoly r pos w :
  success (closestPointOnPoly R r pos w).1
  = statusSucceed R (status (closestPointOnPoly R r pos w).1).
Proof.
  unfold closestPointOnPoly. rewrite !bind_unfold, native_unfold. cbn.
  repeat match goal with
         | |- context [let '(_, _) := ?p in _] => destruct p
         end.
  reflexivity.
Qed.

Lemma success_findStraightPath s t p o w :
  success (findStraightPath R s t p o w).1
  = statusSucceed R (status (findStraightPath R s t p o w).1).
Proof.
  unfold findStraightPath. rewrite !bind_unfold, native_unfold. cbn.
  repeat match goal with
         | |- context [let '(_, _) := ?p in _] => destruct p
         end.
  reflexivity.
Qed.

(** A failure of [computePath] that passes on the status of the
    sub-operation [S] speaks of, the [k]-th of the error names. *)
Ltac status_failure k S Hin :=
  right; split; [reflexivity|]; split; [reflexivity|];
  eexists _, _; split; [reflexivity|];
  split; [apply Hin; exists k; reflexivity|];
  split; [split; discriminate|];
  let code := fresh "code" in
  let H := fresh "H" in
  intros code H; injection H as <-; rewrite <- S; reflexivity.

(** X1. [computePath] has two kinds of result and nothing in between.
    Either [success] is true and there is no [error]; or [success] is false,
    [path] is empty and [error] carries one of the six names of the source.
    The error has no [status] exactly when its name is "no polygon path
    found"; otherwise its status is the status of the sub-operation that
    failed, so one the native module does not count as success. *)
Theorem computePath_outcome this s t o w :
  let r := run R (computePath R this s t o) w in
  (computed R r = true /\ error R r = None) \/
  (computed R r = false /\ path R r = [] /\
   exists name_ st,
     error R r = Some {| name := name_; error_status := st |} /\
     name_ ∈ errorNames /\
     (st = None <-> name_ = "no polygon path found") /\
     forall code, st = Some code -> statusSucceed R code = false).
Proof.
  unfold run. rewrite computePath_unfold.
  set (n1 := findNearestPoly R this s (nearestOptions this o) w).
  set (n2 := findNearestPoly R this t (nearestOptions this o) n1.2).
  set (fp := findPath R this _ _ s t (corridorOptions this o) n2.2).
  set (corridor := polys (payload fp.1)).
  set (cp := closestPointOnPoly R (lastOf corridor) t fp.2).
  assert (Hin : forall n : string,
            (exists k, errorNames !! k = Some n) -> n ∈ errorNames)
    by (intros n [k Hk]; eapply list_elem_of_lookup_2, Hk).
  pose proof (success_findNearestPoly this s (nearestOptions this o) w) as S1.
  pose proof (success_findNearestPoly this t (nearestOptions this o) n1.2)
    as S2.
  pose proof (success_findPath this (nearestRef (payload n1.1))
                (nearestRef (payload n2.1)) s t (corridorOptions this o)
                n2.2) as S3.
  pose proof (success_closestPointOnPoly (lastOf corridor) t fp.2) as S4.
  fold n1 in S1. fold n2 in S2. fold fp in S3. fold cp in S4.
  destruct (success n1.1) eqn:E1; cbn [negb fst];
    [| status_failure 0%nat S1 Hin].
  destruct (success n2.1) eqn:E2; cbn [negb fst];
    [| status_failure 1%nat S2 Hin].
  destruct (success fp.1) eqn:E3; cbn [negb fst];
    [| status_failure 2%nat S3 Hin].
  destruct (length corridor <=? 0)%nat; cbn [fst].
  { right. split; [reflexivity|]. split; [reflexivity|].
    eexists _, _. split; [reflexivity|].
    split; [apply Hin; exists 3%nat; reflexivity|].
    split; [split; reflexivity | discriminate]. }
  destruct (lastOf corridor =? _); cbn [negb andb].
  - match goal with
    | |- context [findStraightPath R ?a ?b ?c ?d ?e] =>
        pose proof (success_findStraightPath a b c d e) as S5;
        set (sp := findStraightPath R a b c d e) in *
    end.
    destruct (success sp.1) eqn:E5; cbn [negb fst];
      [left; split; reflexivity | status_failure 5%nat S5 Hin].
  - destruct (success cp.1) eqn:E4; cbn [negb fst];
      [| status_failure 4%nat S4 Hin].
    match goal with
    | |- context [findStraightPath R ?a ?b ?c ?d ?e] =>
        pose proof (success_findStraightPath a b c d e) as S5;
        set (sp := findStraightPath R a b c d e) in *
    end.
    destruct (success sp.1) eqn:E5; cbn [negb fst];
      [left; split; reflexivity | status_failure 5%nat S5 Hin].
Qed.

(** X2. The one failure of [computePath] that is not the failure of a
    native call: it reports "no polygon path found", without a status,
    exactly when both nearest-polygon queries and the corridor search
    succeed and the corridor that comes back is empty.  It then stops after
    the corridor search: no closest point is looked up and no string pulling
    is done. *)
Theorem computePath_empty_corridor this s t o w :
  let n1 := findNearestPoly R this s (nearestOptions this o) w in
  let n2 := findNearestPoly R this t (nearestOptions this o) n1.2 in
  let fp :=
    findPath R this (nearestRef (payload n1.1)) (nearestRef (payload n2.1))
      s t (corridorOptions this o) n2.2 in
  let empty :=
    success n1.1 = true /\ success n2.1 = true /\ success fp.1 = true /\
    polys (payload fp.1) = [] in
  (empty <->
   exists st,
     error R (run R (computePath R this s t o) w)
     = Some {| name := "no polygon path found"; error_status := st |}) /\
  (empty ->
   computePath R this s t o w = (failed R "no polygon path found" None, fp.2)).
Proof.
  intros n1 n2 fp empty. subst empty. unfold run.
  rewrite computePath_unfold. fold n1 n2 fp.
  destruct (success n1.1); cbn [negb fst];
    [| split; [split; [intros [? _]; discriminate
                      | intros [st [=]]]
              | intros [? _]; discriminate]].
  destruct (success n2.1); cbn [negb fst];
    [| split; [split; [intros (_ & ? & _); discriminate
                      | intros [st [=]]]
              | intros (_ & ? & _); discriminate]].
  destruct (success fp.1); cbn [negb fst];
    [| split; [split; [intros (_ & _ & ? & _); discriminate
                      | intros [st [=]]]
              | intros (_ & _ & ? & _); discriminate]].
  destruct (polys (payload fp.1)) as [|p corridor] eqn:Hpolys; cbn [length].
  { cbn. split; [split; [eexists; reflexivity | repeat split]|].
    reflexivity. }
  change (S (length corridor) <=? 0)%nat with false. cbv iota.
  split; [split|]; [intros (_ & _ & _ & ?); discriminate | |
                    intros (_ & _ & _ & ?); discriminate].
  intros [st Hst]. exfalso.
  repeat match type of Hst with
         | context [if ?c then _ else _] => destruct c
         end; cbn in Hst; discriminate Hst.
Qed.

Lemma computePath_calls this s t o w :
  let n1 := findNearestPoly R this s (nearestOptions this o) w in
  let n2 := findNearestPoly R this t (nearestOptions this o) n1.2 in
  let startRef := nearestRef (payload n1.1) in
  let endRef := nearestRef (payload n2.1) in
  let fp := findPath R this startRef endRef s t (corridorOptions this o) n2.2 in
  let corridor := polys (payload fp.1) in
  let cp := closestPointOnPoly R (lastOf corridor) t fp.2 in
  let closestEnd :=
    if lastOf corridor =? endRef then {| x := x t; y := y t; z := z t |}
    else closestPoint (payload cp.1) in
  let sp :=
    findStraightPath R s closestEnd corridor (straightOptions o)
      (if lastOf corridor =? endRef then fp.2 else cp.2) in
  let full := fullTrace this s t o startRef endRef corridor closestEnd in
  calls R n1.2 = calls R w ++ take 1 full /\
  calls R n2.2 = calls R w ++ take 2 full /\
  calls R fp.2 = calls R w ++ take 3 full /\
  ((lastOf corridor =? endRef) = false ->
   calls R cp.2 = calls R w ++ take 4 full) /\
  calls R sp.2 = calls R w ++ full.
Proof.
  intros n1 n2 startRef endRef fp corridor cp closestEnd sp full.
  assert (E1 : calls R n1.2 = calls R w ++ take 1 full)
    by (subst n1; rewrite calls_findNearestPoly; reflexivity).
  assert (E2 : calls R n2.2 = calls R w ++ take 2 full).
  { subst n2. rewrite calls_findNearestPoly, E1, <- app_assoc. reflexivity. }
  assert (E3 : calls R fp.2 = calls R w ++ take 3 full).
  { subst fp. rewrite calls_findPath, E2, <- app_assoc. reflexivity. }
  assert (E4 : (lastOf corridor =? endRef) = false ->
               calls R cp.2 = calls R w ++ take 4 full).
  { intros Hlast. subst cp. rewrite calls_closestPointOnPoly, E3, <- app_assoc.
    subst full. unfold fullTrace. rewrite Hlast. reflexivity. }
  repeat split; try assumption.
  subst sp. rewrite calls_findStraightPath.
  subst full closestEnd. unfold fullTrace.
  destruct (lastOf corridor =? endRef) eqn:Hlast.
  - rewrite E3, <- app_assoc. reflexivity.
  - rewrite (E4 eq_refl), <- app_assoc. unfold fullTrace. rewrite Hlast.
    reflexivity.
Qed.

Lemma fullTrace_filters this s t o startRef endRef corridor closestEnd :
  Forall (filterIs (raw (pathFilter this o)))
    (fullTrace this s t o startRef endRef corridor closestEnd).
Proof.
  unfold fullTrace.
  destruct (lastOf corridor =? endRef); cbn [app];
    repeat (apply Forall_cons; split; [unfold filterIs; cbn; auto|]);
    apply Forall_nil_2.
Qed.

Lemma fullTrace_length this s t o startRef endRef corridor closestEnd :
  length (fullTrace this s t o startRef endRef corridor closestEnd)
  = if lastOf corridor =? endRef then 4%nat else 5%nat.
Proof. unfold fullTrace. destruct (lastOf corridor =? endRef); reflexivity. Qed.

(** X3. However [computePath] ends, it has made between one and five native
    calls, the first of them the nearest-polygon query for the start
    position with the query object's default half extents; and every call
    that takes a filter is handed the filter of the options, or the query
    object's default filter when the options name none. *)
Theorem computePath_call_budget this s t o w :
  exists trace,
    calls R (exec R (computePath R this s t o) w) = calls R w ++ trace /\
    (1 <= length trace <= 5)%nat /\
    Forall (filterIs (raw (pathFilter this o))) trace /\
    head trace
    = Some (CallFindNearestPoly (vec3_toArray s)
              (vec3_toArray (defaultQueryHalfExtents this))
              (raw (pathFilter this o))).
Proof.
  unfold exec. rewrite computePath_unfold.
  destruct (computePath_calls this s t o w) as (E1 & E2 & E3 & E4 & E5).
  match type of E5 with
  | _ = _ ++ ?f => set (full := f) in *
  end.
  assert (Hall : Forall (filterIs (raw (pathFilter this o))) full)
    by apply fullTrace_filters.
  assert (Hlen : (4 <= length full <= 5)%nat).
  { subst full. rewrite fullTrace_length. destruct (_ =? _); lia. }
  assert (Hprefix : forall k, (1 <= k <= 4)%nat ->
            (1 <= length (take k full) <= 5)%nat /\
            Forall (filterIs (raw (pathFilter this o))) (take k full) /\
            head (take k full) = head full).
  { intros k Hk. rewrite length_take. split; [lia|].
    split; [apply Forall_take, Hall|].
    destruct k; [lia|]. destruct full; reflexivity. }
  assert (Hhead : head full
            = Some (CallFindNearestPoly (vec3_toArray s)
                      (vec3_toArray (defaultQueryHalfExtents this))
                      (raw (pathFilter this o)))) by reflexivity.
  rewrite <- Hhead.
  destruct (negb (success _)); cbn [snd];
    [exists (take 1 full); split; [exact E1 | apply Hprefix; lia]|].
  destruct (negb (success _)); cbn [snd];
    [exists (take 2 full); split; [exact E2 | apply Hprefix; lia]|].
  destruct (negb (success _)); cbn [snd];
    [exists (take 3 full); split; [exact E3 | apply Hprefix; lia]|].
  destruct (_ <=? 0)%nat; cbn [snd];
    [exists (take 3 full); split; [exact E3 | apply Hprefix; lia]|].
  destruct (lastOf _ =? _) eqn:Hlast; cbn [negb andb].
  - destruct (negb (success _)); cbn [snd];
      (exists full; split; [exact E5|]; split; [lia|]; split;
         [exact Hall | reflexivity]).
  - destruct (negb (success _)); cbn [snd];
      [exists (take 4 full); split; [exact (E4 eq_refl) | apply Hprefix; lia]|].
    destruct (negb (success _)); cbn [snd];
      (exists full; split; [exact E5|]; split; [lia|]; split;
         [exact Hall | reflexivity]).
Qed.

(** What the native calls of [computePath] return, up to the closest point
    on the last corridor polygon, is what its sub-operations hand on. *)
Lemma computePath_values this s t o w :
  let h := raw (pathFilter this o) in
  let flt := filterAt R w h in
  let he := vec3_toArray (defaultQueryHalfExtents this) in
  let n := default 256%nat (o ≫= cp_maxPathPolys) in
  let N1 := raw_findNearestPoly R (vec3_toArray s) he flt (engine R w) in
  let N2 := raw_findNearestPoly R (vec3_toArray t) he flt N1.2 in
  let FP :=
    raw_findPath R N1.1.1.1.2 N2.1.1.1.2 (vec3_toArray s) (vec3_toArray t)
      flt (resize 0 n []) n N2.2 in
  let CP :=
    raw_closestPointOnPoly R (lastOf FP.1.2) (vec3_toArray t) FP.2 in
  let n1 := findNearestPoly R this s (nearestOptions this o) w in
  let n2 := findNearestPoly R this t (nearestOptions this o) n1.2 in
  let fp :=
    findPath R this (nearestRef (payload n1.1)) (nearestRef (payload n2.1))
      s t (corridorOptions this o) n2.2 in
  let cp := closestPointOnPoly R (lastOf (polys (payload fp.1))) t fp.2 in
  nearestRef (payload n1.1) = N1.1.1.1.2 /\
  nearestRef (payload n2.1) = N2.1.1.1.2 /\
  polys (payload fp.1) = FP.1.2 /\
  engine R fp.2 = FP.2 /\
  closestPoint (payload cp.1) = CP.1.1.2 /\
  engine R cp.2 = CP.2.
Proof.
  cbv zeta.
  rewrite !closestPointOnPoly_native, !findPath_raw, !findNearestPoly_raw.
  cbn [fst snd payload nearestRef polys closestPoint engine filters
       filterAt result].
  repeat split.
  destruct (raw_closestPointOnPoly R _ _ _) as [[[st [px py pz]] over] e].
  reflexivity.
Qed.

(** X4. When [computePath] succeeds its native calls were, in order: the
    nearest-polygon query for the start and the one for the end, the
    corridor search between the two polygons that these queries returned,
    the closest point on the last polygon of the corridor that the search
    returned if that is not the end polygon, and string pulling over that
    very corridor, to the closest point that was returned or, when the
    corridor reaches the end polygon, to the end position itself.  The
    corridor is not empty. *)
Theorem computePath_success_calls this s t o w res w' :
  computePath R this s t o w = (res, w') ->
  computed R res = true ->
  let h := raw (pathFilter this o) in
  let flt := filterAt R w h in
  let he := vec3_toArray (defaultQueryHalfExtents this) in
  let n := default 256%nat (o ≫= cp_maxPathPolys) in
  let nearStart :=
    raw_findNearestPoly R (vec3_toArray s) he flt (engine R w) in
  let nearEnd := raw_findNearestPoly R (vec3_toArray t) he flt nearStart.2 in
  let startRef := nearStart.1.1.1.2 in
  let endRef := nearEnd.1.1.1.2 in
  let search :=
    raw_findPath R startRef endRef (vec3_toArray s) (vec3_toArray t) flt
      (resize 0 n []) n nearEnd.2 in
  let corridor := search.1.2 in
  let onLast :=
    raw_closestPointOnPoly R (lastOf corridor) (vec3_toArray t) search.2 in
  let closestEnd := if lastOf corridor =? endRef then t else onLast.1.1.2 in
  corridor <> [] /\
  calls R w'
  = calls R w ++ fullTrace this s t o startRef endRef corridor closestEnd.
Proof.
  intros Hrun Hok.
  destruct (computePath_values this s t o w)
    as (V1 & V2 & V3 & _ & V5 & _).
  destruct (computePath_calls this s t o w) as (_ & _ & _ & _ & E5).
  cbv zeta in V1, V2, V3, V5, E5 |- *.
  rewrite computePath_unfold in Hrun.
  repeat match type of Hrun with
         | (if ?c then _ else _) = _ =>
             let E := fresh "E" in destruct c eqn:E
         end;
    inversion Hrun; subst; try discriminate Hok.
  rewrite E5, <- V5, <- V3, <- V2, <- V1.
  split.
  - intros Hnil. rewrite Hnil in *. discriminate.
  - f_equal. f_equal.
    destruct (lastOf _ =? _); [destruct t|]; reflexivity.
Qed.

(** ** The path of [computePath] *)

(** C10. When [computePath] succeeds, the sub-operations all succeeded; the
    path has [straightPathCount] points, the [i]-th built from the flat
    buffer at [3i], [3i+1], [3i+2]; the end position handed to string pulling
    is the requested end when the last corridor polygon is the end polygon,
    and otherwise the closest point that the native [closestPointOnPoly]
    returned for the last corridor polygon and the requested end; and that
    position is what the native [findStraightPath] is called with, the
    buffer and the count of the result being what this call returned. *)
Theorem computePath_success_shape this start end_ options w res w' :
  computePath R this start end_ options w = (res, w') ->
  computed R res = true ->
  exists r1 w1 r2 w2 r3 w3 closestEnd w4 r5,
    findNearestPoly R this start (nearestOptions this options) w = (r1, w1) /\
    findNearestPoly R this end_ (nearestOptions this options) w1 = (r2, w2) /\
    findPath R this (nearestRef (payload r1)) (nearestRef (payload r2))
      start end_ (corridorOptions this options) w2 = (r3, w3) /\
    ClosestEnd R end_ (nearestRef (payload r2)) (polys (payload r3)) w3
      closestEnd w4 /\
    findStraightPath R start closestEnd (polys (payload r3))
      (straightOptions options) w4 = (r5, w') /\
    length (path R res) = straightPathCount (payload r5) /\
    (forall i : nat, (i < straightPathCount (payload r5))%nat ->
       path R res !! i
       = Some {| x := get num_zero (straightPath (payload r5)) (3 * i);
                 y := get num_zero (straightPath (payload r5)) (3 * i + 1);
                 z := get num_zero (straightPath (payload r5)) (3 * i + 2) |}) /\
    let lastPoly := lastOf (polys (payload r3)) in
    let onLast :=
      raw_closestPointOnPoly R lastPoly (vec3_toArray end_) (engine R w3) in
    let maxPts := default 256%nat (options ≫= cp_maxStraightPathPoints) in
    let pulled :=
      raw_findStraightPath R (vec3_toArray start) (vec3_toArray closestEnd)
        (polys (payload r3)) (resize num_zero (maxPts * 3) [])
        (resize 0 maxPts []) (resize 0 maxPts []) maxPts 0 (engine R w4) in
    closestEnd
    = (if lastPoly =? nearestRef (payload r2) then end_ else onLast.1.1.2) /\
    engine R w4
    = (if lastPoly =? nearestRef (payload r2) then engine R w3
       else onLast.2) /\
    straightPath (payload r5) = pulled.1.1.1.1.2 /\
    straightPathCount (payload r5) = pulled.1.2 /\
    calls R w'
    = calls R w4
      ++ [CallFindStraightPath (vec3_toArray start) (vec3_toArray closestEnd)
            (polys (payload r3)) maxPts 0].
Proof.
  unfold computePath. intros Hrun Hok.
  rewrite bind_unfold in Hrun.
  destruct (findNearestPoly R this start (nearestOptions this options) w)
    as [r1 w1] eqn:H1. cbn [fst snd] in Hrun.
  destruct (success r1) eqn:S1; cbn [negb] in Hrun;
    [| inversion Hrun; subst; discriminate Hok].
  rewrite bind_unfold in Hrun.
  destruct (findNearestPoly R this end_ (nearestOptions this options) w1)
    as [r2 w2] eqn:H2. cbn [fst snd] in Hrun.
  destruct (success r2) eqn:S2; cbn [negb] in Hrun;
    [| inversion Hrun; subst; discriminate Hok].
  rewrite bind_unfold in Hrun.
  destruct (findPath R this (nearestRef (payload r1)) (nearestRef (payload r2))
              start end_ (corridorOptions this options) w2)
    as [r3 w3] eqn:H3. cbn [fst snd] in Hrun.
  destruct (success r3) eqn:S3; cbn [negb] in Hrun;
    [| inversion Hrun; subst; discriminate Hok].
  destruct (length (polys (payload r3)) <=? 0)%nat eqn:Hsize;
    [inversion Hrun; subst; discriminate Hok |].
  assert (Hne : polys (payload r3) <> []).
  { intros E. rewrite E in Hsize. discriminate Hsize. }
  set (lastPoly := get 0 (polys (payload r3))
                     (length (polys (payload r3)) - 1)) in *.
  assert (Hclosest : exists closestEnd w4,
    ClosestEnd R end_ (nearestRef (payload r2)) (polys (payload r3)) w3
      closestEnd w4 /\
    exists r5,
      findStraightPath R start closestEnd (polys (payload r3))
        (straightOptions options) w4 = (r5, w') /\
      success r5 = true /\
      res = {| computed := true; error := None;
               path := formatPoints (straightPath (payload r5))
                         (straightPathCount (payload r5)) |}).
  { destruct (lastPoly =? nearestRef (payload r2)) eqn:Hlast;
      cbn [negb] in Hrun.
    - rewrite bind_unfold in Hrun. cbn [mret M_ret fst snd] in Hrun.
      apply Z.eqb_eq in Hlast.
      eexists _, w3. split; [apply EndInEndPoly; assumption|].
      rewrite bind_unfold in Hrun.
      destruct (findStraightPath R start _ (polys (payload r3))
                  (straightOptions options) w3) as [r5 w5] eqn:H5.
      cbn [fst snd] in Hrun.
      destruct (success r5) eqn:S5; cbn [negb] in Hrun;
        [| inversion Hrun; subst; discriminate Hok].
      inversion Hrun; subst. eexists; repeat split; eauto.
    - rewrite !bind_unfold in Hrun.
      destruct (closestPointOnPoly R lastPoly end_ w3) as [r4 w4] eqn:H4.
      cbn [fst snd] in Hrun.
      apply Z.eqb_neq in Hlast.
      destruct (success r4) eqn:S4; cbn [negb mret M_ret fst snd] in Hrun;
        [| inversion Hrun; subst; discriminate Hok].
      eexists _, w4. split; [eapply EndOnLastPoly; eassumption|].
      rewrite bind_unfold in Hrun.
      destruct (findStraightPath R start _ (polys (payload r3))
                  (straightOptions options) w4) as [r5 w5] eqn:H5.
      cbn [fst snd] in Hrun.
      destruct (success r5) eqn:S5; cbn [negb] in Hrun;
        [| inversion Hrun; subst; discriminate Hok].
      inversion Hrun; subst. eexists; repeat split; eauto. }
  destruct Hclosest as (closestEnd & w4 & Hend & r5 & H5 & S5 & ->).
  exists r1, w1, r2, w2, r3, w3, closestEnd, w4, r5.
  do 5 (split; [first [reflexivity | assumption]|]).
  split; [cbn; apply length_formatPoints|].
  split; [intros i Hi; cbn; apply lookup_formatPoints, Hi|].
  cbv zeta.
  assert (Hpoint : closestEnd
            = (if lastOf (polys (payload r3)) =? nearestRef (payload r2)
               then end_
               else (raw_closestPointOnPoly R (lastOf (polys (payload r3)))
                       (vec3_toArray end_) (engine R w3)).1.1.2)
            /\ engine R w4
                = (if lastOf (polys (payload r3)) =? nearestRef (payload r2)
                   then engine R w3
                   else (raw_closestPointOnPoly R
                           (lastOf (polys (payload r3)))
                           (vec3_toArray end_) (engine R w3)).2)).
  { unfold lastOf. destruct Hend as [_ Hlast | r w4' _ Hlast Hcall _].
    - apply Z.eqb_eq in Hlast. rewrite Hlast.
      split; [destruct end_|]; reflexivity.
    - apply Z.eqb_neq in Hlast. rewrite Hlast.
      rewrite closestPointOnPoly_native in Hcall.
      injection Hcall as <- <-. cbn [payload closestPoint engine].
      split; [| reflexivity].
      destruct (raw_closestPointOnPoly R _ _ _) as [[[st [px py pz]] ov] e].
      reflexivity. }
  destruct Hpoint as [Hpoint Hengine].
  split; [exact Hpoint|]. split; [exact Hengine|].
  rewrite findStraightPath_native in H5. injection H5 as <- <-.
  repeat split.
Qed.

(** ** The arrays handed back *)

Lemma array_get_take {T} (zero : T) (a : list T) (n : nat) :
  (n <= length a)%nat -> array (get zero a) n = take n a.
Proof.
  intros Hn. unfold array, get. apply list_eq. intros i.
  rewrite list_lookup_fmap, lookup_take.
  destruct (decide (i < n)%nat) as [Hi|Hi].
  - rewrite lookup_seq_lt by exact Hi. cbn.
    destruct (lookup_lt_is_Some_2 a i ltac:(lia)) as [v Hv].
    rewrite Hv. f_equal. apply nth_lookup_Some with (d := zero) in Hv.
    exact Hv.
  - rewrite lookup_seq_ge by lia. reflexivity.
Qed.

Lemma array_get_all {T} (zero : T) (a : list T) :
  array (get zero a) (length a) = a.
Proof. rewrite array_get_take by lia. apply take_ge. lia. Qed.

(** X5. The arrays a range query hands back are copies of what the native
    call left in the buffers.  [queryPolygons] and [findPolysAroundCircle]
    return the first [count] entries of the native arrays, for the count the
    native call reports (which the buffers can hold); [moveAlongSurface]
    starts from an empty [visited] buffer and returns all of it, whatever
    its size. *)
Theorem range_results_are_native_prefix this o w :
  let flt := filterAt R w (filterRaw this (o ≫= bo_filter)) in
  let maxPolys := default 256%nat (o ≫= bo_max) in
  let buffer := resize 0 maxPolys [] in
  (forall c he st refs count e,
     raw_queryPolygons R (vec3_toArray c) (vec3_toArray he) flt buffer
       maxPolys (engine R w) = ((st, refs, count), e) ->
     (count <= length refs)%nat ->
     run R (queryPolygons R this c he o) w
     = result R st {| polyRefs := take count refs; polyCount := count |}) /\
  (forall startRef c rad st refs parents cost count e,
     raw_findPolysAroundCircle R startRef (vec3_toArray c) rad flt buffer
       buffer maxPolys (engine R w) = ((st, refs, parents, cost, count), e) ->
     (count <= length refs)%nat -> (count <= length parents)%nat ->
     run R (findPolysAroundCircle R this startRef c rad o) w
     = result R st {| resultRefs := take count refs;
                      resultParents := take count parents;
                      resultCost := cost; resultCount := count |}) /\
  (forall startRef s t st pos vis e,
     raw_moveAlongSurface R startRef (vec3_toArray s) (vec3_toArray t) flt []
       maxPolys (engine R w) = ((st, pos, vis), e) ->
     run R (moveAlongSurface R this startRef s t o) w
     = result R st {| resultPosition := pos; visited := vis |}).
Proof.
  intros flt maxPolys buffer. split; [| split].
  - intros c he st refs count e Hraw Hcount.
    unfold run, queryPolygons. rewrite !bind_unfold, native_unfold.
    cbn [fst snd readFilter]. fold flt maxPolys buffer. rewrite Hraw.
    cbn [fst snd mret M_ret]. rewrite array_get_take by exact Hcount.
    reflexivity.
  - intros startRef c rad st refs parents cost count e Hraw Hr Hp.
    unfold run, findPolysAroundCircle. rewrite !bind_unfold, native_unfold.
    cbn [fst snd readFilter]. fold flt maxPolys buffer. rewrite Hraw.
    cbn [fst snd mret M_ret]. rewrite !array_get_take by assumption.
    reflexivity.
  - intros startRef s t st pos vis e Hraw.
    unfold run, moveAlongSurface. rewrite !bind_unfold, native_unfold.
    cbn [fst snd readFilter]. fold flt maxPolys. rewrite Hraw.
    cbn [fst snd mret M_ret]. rewrite array_get_all.
    destruct pos; reflexivity.
Qed.

(** ** Filter objects *)

(** The filter-taking native calls of [computePath] are all handed the
    one filter. *)
Lemma computePath_filters this s t o w :
  exists trace,
    calls R (exec R (computePath R this s t o) w) = calls R w ++ trace /\
    Forall (filterIs (raw (pathFilter this o))) trace.
Proof.
  unfold exec. rewrite computePath_unfold.
  destruct (computePath_calls this s t o w) as (E1 & E2 & E3 & E4 & E5).
  match type of E5 with
  | _ = _ ++ ?f => set (full := f) in *
  end.
  assert (Hall : Forall (filterIs (raw (pathFilter this o))) full)
    by apply fullTrace_filters.
  assert (Hprefix : forall k,
            Forall (filterIs (raw (pathFilter this o))) (take k full))
    by (intros k; apply Forall_take, Hall).
  destruct (negb (success _)); cbn [snd];
    [exists (take 1 full); split; [exact E1 | apply Hprefix]|].
  destruct (negb (success _)); cbn [snd];
    [exists (take 2 full); split; [exact E2 | apply Hprefix]|].
  destruct (negb (success _)); cbn [snd];
    [exists (take 3 full); split; [exact E3 | apply Hprefix]|].
  destruct (_ <=? 0)%nat; cbn [snd];
    [exists (take 3 full); split; [exact E3 | apply Hprefix]|].
  destruct (lastOf _ =? _) eqn:Hlast; cbn [negb andb].
  - destruct (negb (success _)); cbn [snd];
      (exists full; split; [exact E5 | exact Hall]).
  - destruct (negb (success _)); cbn [snd];
      [exists (take 4 full); split; [exact (E4 eq_refl) | apply Hprefix]|].
    destruct (negb (success _)); cbn [snd];
      (exists full; split; [exact E5 | exact Hall]).
Qed.

(** C6. The query object is constructed with a default filter whose include
    flags are [0xffff] and whose exclude flags are [0]; under it every
    polygon whose 16-bit flags field is not zero is passable.
    Every query operation invoked without a filter hands its native call
    this default filter: the call is recorded with the handle of
    [this.defaultFilter] and is given that filter object as it is when the
    call is made; in [computePath], every native call that takes a filter is
    recorded with that handle. *)
Theorem default_filter_includes_all value w this w1 :
  NavMeshQuery_new R value w = (this, w1) ->
  let h := raw (defaultFilter this) in
  run R (get_includeFlags R (defaultFilter this)) w1 = 0xffff /\
  run R (get_excludeFlags R (defaultFilter this)) w1 = 0 /\
  (forall flags, 0 < flags < 2 ^ 16 ->
     passFilter (filterAt R w1 h) flags = true) /\
  (forall pos (o : option (SearchOptions num)), o ≫= so_filter = None ->
     let c := vec3_toArray pos in
     let he :=
       vec3_toArray
         (default (defaultQueryHalfExtents this) (o ≫= so_halfExtents)) in
     (exists build, forall w',
        findNearestPoly R this pos o w'
        = viaFilter R h (CallFindNearestPoly c he h)
            (raw_findNearestPoly R c he) build w') /\
     (exists build, forall w',
        getClosestPoint R this pos o w'
        = viaFilter R h (CallGetClosestPoint c he h)
            (raw_getClosestPoint R c he) build w') /\
     (forall rad, exists build, forall w',
        getRandomPointAround R this pos rad o w'
        = viaFilter R h (CallGetRandomPointAround c rad he h)
            (raw_getRandomPointAround R c rad he) build w')) /\
  (forall (o : option BoundedOptions), o ≫= bo_filter = None ->
     let n := default 256%nat (o ≫= bo_max) in
     let buffer := resize 0 n [] in
     (forall r c rad, exists build, forall w',
        findPolysAroundCircle R this r c rad o w'
        = viaFilter R h
            (CallFindPolysAroundCircle r (vec3_toArray c) rad h n)
            (fun flt =>
               raw_findPolysAroundCircle R r (vec3_toArray c) rad flt buffer
                 buffer n) build w') /\
     (forall c he, exists build, forall w',
        queryPolygons R this c he o w'
        = viaFilter R h
            (CallQueryPolygons (vec3_toArray c) (vec3_toArray he) h n)
            (fun flt =>
               raw_queryPolygons R (vec3_toArray c) (vec3_toArray he) flt
                 buffer n) build w') /\
     (forall r s t, exists build, forall w',
        moveAlongSurface R this r s t o w'
        = viaFilter R h
            (CallMoveAlongSurface r (vec3_toArray s) (vec3_toArray t) h n)
            (fun flt =>
               raw_moveAlongSurface R r (vec3_toArray s) (vec3_toArray t) flt
                 [] n) build w') /\
     (forall a b s t, exists build, forall w',
        findPath R this a b s t o w'
        = viaFilter R h
            (CallFindPath a b (vec3_toArray s) (vec3_toArray t) h n)
            (fun flt =>
               raw_findPath R a b (vec3_toArray s) (vec3_toArray t) flt
                 buffer n) build w')) /\
  (forall (o : option FilterOptions), o ≫= fo_filter = None ->
     exists build, forall w',
       findRandomPoint R this o w'
       = viaFilter R h (CallFindRandomPoint h) (raw_findRandomPoint R) build
           w') /\
  (forall s t (o : option ComputePathOptions) w', o ≫= cp_filter = None ->
     exists trace,
       calls R (exec R (computePath R this s t o) w') = calls R w' ++ trace /\
       Forall (filterIs h) trace).
Proof.
  intros Hnew h. pose proof (constructed_default_filter R value w) as Hc.
  rewrite Hnew in Hc. destruct Hc as [Hi He].
  assert (Hsearch : forall o : option (SearchOptions num),
            o ≫= so_filter = None -> filterRaw this (o ≫= so_filter) = h)
    by (intros o ->; reflexivity).
  assert (Hbound : forall o : option BoundedOptions,
            o ≫= bo_filter = None -> filterRaw this (o ≫= bo_filter) = h)
    by (intros o ->; reflexivity).
  split; [exact Hi|]. split; [exact He|].
  split; [intros; apply passFilter_all; assumption|].
  split; [| split; [| split]].
  - intros pos o Ho c he. specialize (Hsearch o Ho). repeat split.
    + eexists. intros w'. rewrite findNearestPoly_native, Hsearch.
      reflexivity.
    + eexists. intros w'. rewrite getClosestPoint_native, Hsearch.
      reflexivity.
    + intros rad. eexists. intros w'.
      rewrite getRandomPointAround_native, Hsearch. reflexivity.
  - intros o Ho n buffer. specialize (Hbound o Ho). repeat split.
    + intros r c rad. eexists. intros w'.
      rewrite findPolysAroundCircle_native, Hbound. reflexivity.
    + intros c he. eexists. intros w'.
      rewrite queryPolygons_native, Hbound. reflexivity.
    + intros r s t. eexists. intros w'.
      rewrite moveAlongSurface_native, Hbound. reflexivity.
    + intros a b s t. eexists. intros w'.
      rewrite findPath_native, Hbound. reflexivity.
  - intros o Ho. eexists. intros w'.
    rewrite findRandomPoint_native, Ho. reflexivity.
  - intros s t o w' Ho.
    destruct (computePath_filters this s t o w') as (trace & Hcalls & Hall).
    exists trace. split; [exact Hcalls|].
    unfold pathFilter in Hall. rewrite Ho in Hall. exact Hall.
Qed.

(** X6. Every [NavMeshQuery] gets a default filter of its own.  The
    constructor allocates a new native filter: it is none of the filters
    that exist already, and those are left as they are.  So the default
    filters of two query objects constructed one after the other are
    different objects, and constructing the second does not touch the
    default filter of the first. *)
Theorem NavMeshQuery_new_own_filter value value' w q1 w1 q2 w2 :
  NavMeshQuery_new R value w = (q1, w1) ->
  NavMeshQuery_new R value' w1 = (q2, w2) ->
  (raw (defaultFilter q1) ∉ dom (filters R w)) /\
  (forall h, h ∈ dom (filters R w) -> filters R w1 !! h = filters R w !! h) /\
  raw (defaultFilter q2) <> raw (defaultFilter q1) /\
  filters R w2 !! raw (defaultFilter q1)
  = filters R w1 !! raw (defaultFilter q1).
Proof.
  unfold NavMeshQuery_new, QueryFilter_new, set_includeFlags,
    set_excludeFlags, updateFilter, newRawFilter, setEngine.
  rewrite !bind_unfold. cbn. intros Hnew Hnew'.
  injection Hnew as <- <-. injection Hnew' as <- <-. cbn.
  set (h0 := fresh (dom (filters R w))).
  assert (Hfresh : h0 ∉ dom (filters R w)) by apply is_fresh.
  match goal with
  | |- context [fresh (dom ?m)] =>
      lazymatch m with
      | filters R w => fail
      | _ => set (m1 := m)
      end
  end.
  assert (Hfresh' : fresh (dom m1) ∉ dom m1) by apply is_fresh.
  assert (Hin : h0 ∈ dom m1).
  { subst m1. rewrite !dom_insert_L. set_solver. }
  assert (Hne : fresh (dom m1) <> h0) by (intros Heq; congruence).
  split; [exact Hfresh|]. split; [| split; [exact Hne|]].
  - intros h Hh. subst m1.
    rewrite !lookup_insert_ne by (intros ->; contradiction).
    reflexivity.
  - rewrite !lookup_insert_ne by exact Hne. reflexivity.
Qed.

End WrapperCalls.

(** * Properties of the heightfield helper *)

Section HeightfieldFacts.

Context {num : Type} {NO : NumOps num} {NA : NumArith num}.

Implicit Types (this : HeightfieldHelper num) (hf : rcHeightfield num).

(** ** The boxes of a heightfield *)

Lemma walkColumn_app this orig cs ch fx fz spans :
  forall boxes,
  walkColumn this orig cs ch fx fz spans boxes
  = boxes ++ map (boxOf this orig cs ch fx fz) spans.
Proof.
  induction spans as [|sp next IH]; intros boxes; cbn.
  - rewrite app_nil_r. reflexivity.
  - rewrite IH, <- app_assoc. reflexivity.
Qed.

Lemma foldl_same {A B} (f g : B -> A -> B) (l : list A) :
  (forall acc a, f acc a = g acc a) ->
  forall acc, foldl f acc l = foldl g acc l.
Proof.
  intros Hfg. induction l as [|a l IH]; intros acc; cbn; [reflexivity|].
  rewrite Hfg. apply IH.
Qed.

Lemma foldl_append {A B} (f : A -> list B) (l : list A) :
  forall acc, foldl (fun acc a => acc ++ f a) acc l = acc ++ flat_map f l.
Proof.
  induction l as [|a l IH]; intros acc; cbn.
  - rewrite app_nil_r. reflexivity.
  - rewrite IH, <- app_assoc. reflexivity.
Qed.

Lemma collectBoxes_cells this hf :
  collectBoxes this hf
  = flat_map (fun yi => flat_map (cellBoxes this hf yi) (seq 0 (hf_width hf)))
             (seq 0 (hf_height hf)).
Proof.
  unfold collectBoxes.
  rewrite <- (app_nil_l (flat_map _ (seq 0 (hf_height hf)))).
  rewrite <- foldl_append. apply foldl_same. intros boxes yi.
  rewrite <- foldl_append. apply foldl_same. intros boxes' xi.
  apply walkColumn_app.
Qed.

(** The cells [xi + yi * width], rows outermost, are the columns
    [0 .. width * height - 1] in order. *)
Lemma flat_map_fmap {A B C} (f : B -> list C) (g : A -> B) (l : list A) :
  flat_map f (map g l) = flat_map (fun a => f (g a)) l.
Proof.
  induction l as [|a l IH]; cbn; [reflexivity | rewrite IH; reflexivity].
Qed.

Lemma fmap_flat_map {A B C} (g : B -> C) (f : A -> list B) (l : list A) :
  map g (flat_map f l) = flat_map (fun a => map g (f a)) l.
Proof.
  induction l as [|a l IH]; cbn; [reflexivity|].
  rewrite map_app, IH. reflexivity.
Qed.

Lemma seq_shift_add (a n : nat) :
  seq a n = map (fun i => (i + a)%nat) (seq 0 n).
Proof.
  revert a. induction n as [|n IH]; intros a; cbn; [reflexivity|].
  f_equal. rewrite (IH (S a)), (IH 1%nat), map_map.
  apply map_ext. intros i. lia.
Qed.

Lemma grid_columns {C} (F : nat -> list C) (w h : nat) :
  flat_map (fun yi => flat_map (fun xi => F (xi + yi * w)%nat) (seq 0 w))
           (seq 0 h)
  = flat_map F (seq 0 (w * h)).
Proof.
  induction h as [|h IH].
  - rewrite Nat.mul_0_r. reflexivity.
  - rewrite seq_S, flat_map_app, IH. cbn [flat_map]. rewrite app_nil_r.
    replace (w * S h)%nat with (w * h + w)%nat by lia.
    rewrite seq_app, flat_map_app. f_equal.
    rewrite (seq_shift_add (0 + w * h) w), flat_map_fmap.
    apply flat_map_ext. intros xi. f_equal. lia.
Qed.

(** Whatever is read from a box that depends on its span only is read, in
    order, from the spans of the columns. *)
Lemma collectBoxes_spans {C} this hf (g : Box num -> C) (g' : rcSpan -> C) :
  (forall orig cs ch fx fz sp, g (boxOf this orig cs ch fx fz sp) = g' sp) ->
  map g (collectBoxes this hf) = map g' (allSpans hf).
Proof.
  intros Hg. rewrite collectBoxes_cells. unfold allSpans.
  rewrite !fmap_flat_map.
  rewrite <- (grid_columns (fun i => map g' (hf_spans hf i))).
  apply flat_map_ext. intros yi. rewrite fmap_flat_map.
  apply flat_map_ext. intros xi. unfold cellBoxes. rewrite map_map.
  apply map_ext. intros sp. apply Hg.
Qed.

Lemma length_collectBoxes this hf :
  length (collectBoxes this hf) = length (allSpans hf).
Proof.
  rewrite <- (length_map (fun _ => tt) (collectBoxes this hf)).
  rewrite (collectBoxes_spans this hf _ (fun _ => tt)) by reflexivity.
  apply length_map.
Qed.

(** ** Filling the instances *)

Lemma fill_prefix this boxes (m : InstancedMesh num) :
  length (instanceMatrix m) = length boxes ->
  im_count m = length boxes ->
  instanceColor m = None ->
  forall k, (k <= length boxes)%nat ->
  let mk := foldl (fillStep this boxes) m (seq 0 k) in
  instanceMatrix mk
  = map (fun b => Some (position b)) (take k boxes)
    ++ drop k (instanceMatrix m) /\
  instanceColor mk
  = match k with
    | O => None
    | S _ => Some (map (fun b => Some (colorOf this b)) (take k boxes)
                   ++ replicate (length boxes - k) None)
    end /\
  im_count mk = im_count m /\ im_geometry mk = im_geometry m /\
  im_material mk = im_material m /\ matrixDynamic mk = matrixDynamic m /\
  matrixNeedsUpdate mk = matrixNeedsUpdate m /\
  colorNeedsUpdate mk = colorNeedsUpdate m.
Proof.
  intros Hlen Hcount Hcolor. induction k as [|k IH]; intros Hk mk.
  - subst mk. cbn. rewrite take_0, drop_0. repeat split. exact Hcolor.
  - subst mk. rewrite seq_S, foldl_app. cbn [foldl Nat.add].
    destruct (IH ltac:(lia))
      as (Hm & Hc & Hn & Hg & Hmat & Hd & Hu & Hcu).
    set (mk := foldl (fillStep this boxes) m (seq 0 k)) in *.
    destruct (lookup_lt_is_Some_2 boxes k ltac:(lia)) as [b Hb].
    assert (Hstep : fillStep this boxes mk k
              = setColorAt k (colorOf this b) (setMatrixAt k (position b) mk))
      by (unfold fillStep; rewrite Hb; reflexivity).
    rewrite Hstep.
    assert (Htake : take (S k) boxes = take k boxes ++ [b])
      by (apply take_S_r, Hb).
    assert (Hlk : length (take k boxes) = k)
      by (rewrite length_take; lia).
    repeat split; cbn; try assumption.
    + rewrite Hm, Htake, map_app. cbn.
      destruct (lookup_lt_is_Some_2 (instanceMatrix m) k ltac:(lia))
        as [old Hold].
      rewrite (drop_S _ _ _ Hold).
      rewrite insert_app_r_alt by (rewrite length_map; lia).
      rewrite length_map, Hlk, Nat.sub_diag. cbn.
      rewrite <- app_assoc. reflexivity.
    + f_equal. rewrite Hn, Hcount, Hc, Htake, map_app. cbn.
      destruct k as [|k'].
      * cbn. rewrite take_0. cbn.
        destruct (length boxes) as [|n] eqn:Hn0; [lia|].
        cbn. rewrite Nat.sub_0_r. reflexivity.
      * cbn [default id]. unfold id.
        rewrite insert_app_r_alt by (rewrite length_map; lia).
        rewrite length_map, Hlk, Nat.sub_diag.
        replace (length boxes - S k')%nat
          with (S (length boxes - S (S k')))%nat by lia.
        cbn. rewrite <- app_assoc. reflexivity.
Qed.

Lemma fillInstances_spec this boxes (m : InstancedMesh num) :
  length (instanceMatrix m) = length boxes ->
  im_count m = length boxes ->
  instanceColor m = None ->
  let m' := fillInstances this boxes m in
  instanceMatrix m' = map (fun b => Some (position b)) boxes /\
  instanceColor m'
  = match boxes with
    | [] => None
    | _ :: _ => Some (map (fun b => Some (colorOf this b)) boxes)
    end /\
  im_count m' = im_count m /\ im_geometry m' = im_geometry m /\
  im_material m' = im_material m /\ matrixDynamic m' = matrixDynamic m /\
  matrixNeedsUpdate m' = matrixNeedsUpdate m /\
  colorNeedsUpdate m' = colorNeedsUpdate m.
Proof.
  intros Hlen Hcount Hcolor m'.
  destruct (fill_prefix this boxes m Hlen Hcount Hcolor (length boxes)
              ltac:(lia)) as (Hm & Hc & Hrest).
  fold (fillInstances this boxes m) in Hm, Hc, Hrest. fold m' in Hm, Hc, Hrest.
  split; [| split; [| exact Hrest]].
  - rewrite Hm, take_ge, drop_ge by lia. apply app_nil_r.
  - rewrite Hc. destruct boxes as [|b boxes]; [reflexivity|].
    cbn [length]. rewrite take_ge, Nat.sub_diag by (cbn; lia).
    cbn [replicate].
    rewrite app_nil_r. reflexivity.
Qed.

Lemma buildMesh_spec this hf :
  let m := buildMesh this hf in
  let boxes := collectBoxes this hf in
  instanceMatrix m = map (fun b => Some (position b)) boxes /\
  instanceColor m
  = match boxes with
    | [] => None
    | _ :: _ => Some (map (fun b => Some (colorOf this b)) boxes)
    end /\
  im_count m = length boxes /\
  im_geometry m
  = {| box_width := hf_cs hf; box_height := hf_ch hf;
       box_depth := hf_cs hf |} /\
  im_material m = material this /\
  matrixDynamic m = true /\ matrixNeedsUpdate m = true.
Proof.
  intros m boxes. subst m. unfold buildMesh. fold boxes.
  match goal with
  | |- context [fillInstances this boxes ?m0] =>
      destruct (fillInstances_spec this boxes m0)
        as (Hm & Hc & Hn & Hg & Hmat & Hd & _);
        [apply length_replicate | reflexivity | reflexivity |]
  end.
  cbn [finish instanceMatrix instanceColor im_count im_geometry im_material
       matrixDynamic matrixNeedsUpdate].
  rewrite Hm, Hc, Hn, Hg, Hmat, Hd. repeat split.
Qed.

Lemma colorOf_boxOf this orig cs ch fx fz sp :
  colorOf this (boxOf this orig cs ch fx fz sp) = spanColor this sp.
Proof. reflexivity. Qed.

(** X8. [updateHeightfield] replaces the contents of the group: after it the
    group holds one instanced mesh per heightfield of the helper, in their
    order, whatever it held before.  Calling it a second time leaves the
    same contents; meshes do not pile up. *)
Theorem updateHeightfield_replaces_group this :
  heightfields (updateHeightfield this)
  = map (buildMesh this) (recastHeightfields this) /\
  length (heightfields (updateHeightfield this))
  = length (recastHeightfields this) /\
  updateHeightfield (updateHeightfield this) = updateHeightfield this /\
  forall earlier,
    updateHeightfield
      {| heightfields := earlier;
         recastHeightfields := recastHeightfields this;
         highlightWalkable := highlightWalkable this;
         defaultColor := defaultColor this;
         walkableColor := walkableColor this;
         material := material this |}
    = updateHeightfield this.
Proof.
  assert (Hmap : forall l acc,
            foldl (fun group hf => group ++ [buildMesh this hf]) acc l
            = acc ++ map (buildMesh this) l).
  { induction l as [|hf l IH]; intros acc; cbn.
    - rewrite app_nil_r. reflexivity.
    - rewrite IH, <- app_assoc. reflexivity. }
  split; [apply Hmap|]. split.
  - cbn. rewrite Hmap. cbn. apply length_map.
  - split; [reflexivity|]. intros earlier. reflexivity.
Qed.

(** X9. The instanced mesh of a heightfield has one instance per span of
    the columns [0 .. width * height - 1], a matrix is set for each of them,
    and once one colour is set a colour is set for each of them.  The mesh
    of a heightfield without spans has no instances and no colour attribute
    at all. *)
Theorem buildMesh_one_instance_per_span this hf :
  let m := buildMesh this hf in
  im_count m = length (allSpans hf) /\
  length (instanceMatrix m) = im_count m /\
  Forall is_Some (instanceMatrix m) /\
  (forall colors, instanceColor m = Some colors ->
     length colors = im_count m /\ Forall is_Some colors) /\
  (instanceColor m = None <-> allSpans hf = []).
Proof.
  intros m. destruct (buildMesh_spec this hf) as (Hm & Hc & Hn & _).
  fold m in Hm, Hc, Hn.
  pose proof (length_collectBoxes this hf) as Hlen.
  split; [congruence|]. split; [rewrite Hm, length_map, Hn; reflexivity|].
  split; [rewrite Hm; apply Forall_fmap, Forall_true; intros b; cbn; eauto|].
  split.
  - intros colors Hcolors. rewrite Hc in Hcolors.
    destruct (collectBoxes this hf) as [|b boxes] eqn:Hboxes; [discriminate|].
    injection Hcolors as <-.
    split; [rewrite Hn; cbn; rewrite length_map; reflexivity|].
    change (Forall is_Some
              (map (fun b => Some (colorOf this b)) (b :: boxes))).
    apply Forall_fmap, Forall_true. intros b'. cbn. eauto.
  - rewrite Hc. rewrite <- !length_zero_iff_nil, <- Hlen.
    destruct (collectBoxes this hf); cbn; split; intros H;
      first [reflexivity | discriminate].
Qed.

(** X10. The colours of the instances follow the spans, column after
    column and up each column: the walkable colour where [highlightWalkable]
    is set and the area of the span is not 0, the default colour
    everywhere else. *)
Theorem buildMesh_colors this hf :
  instanceColor (buildMesh this hf)
  = match allSpans hf with
    | [] => None
    | _ :: _ => Some (map (fun sp => Some (spanColor this sp)) (allSpans hf))
    end.
Proof.
  destruct (buildMesh_spec this hf) as (_ & Hc & _). rewrite Hc.
  pose proof (collectBoxes_spans this hf (fun b => Some (colorOf this b))
                (fun sp => Some (spanColor this sp))
                ltac:(reflexivity)) as Hmap.
  pose proof (length_collectBoxes this hf) as Hlen.
  destruct (collectBoxes this hf), (allSpans hf); try discriminate Hlen.
  - reflexivity.
  - rewrite Hmap. reflexivity.
Qed.

(** X11. The instances are laid out row by row, within a row cell by
    cell, within a cell span by span; the instance of a span sits at the
    middle of the box from [(fx, bmin.y + smin * ch, fz)] to
    [(fx + cs, bmin.y + smax * ch, fz + cs)], where [(fx, fz)] is the corner
    [(bmin.x + x * cs, bmin.z + y * cs)] of its cell: at
    [((fx + cs + fx) / 2, (bmin.y + smax * ch + (bmin.y + smin * ch)) / 2,
    (fz + cs + fz) / 2)]. *)
Theorem buildMesh_positions this hf :
  instanceMatrix (buildMesh this hf)
  = flat_map
      (fun yi =>
         flat_map
           (fun xi =>
              map (fun sp => Some (spanCentre hf yi xi sp))
                  (hf_spans hf (xi + yi * hf_width hf)))
           (seq 0 (hf_width hf)))
      (seq 0 (hf_height hf)).
Proof.
  destruct (buildMesh_spec this hf) as (Hm & _). rewrite Hm.
  rewrite collectBoxes_cells, fmap_flat_map.
  apply flat_map_ext. intros yi. rewrite fmap_flat_map.
  apply flat_map_ext. intros xi. unfold cellBoxes. rewrite map_map.
  apply map_ext. intros sp. reflexivity.
Qed.

(** X12. A helper constructed without [highlightWalkable], or with it
    false, draws every span in one colour: the default colour given to the
    constructor, blue if none is given; the walkable colour is never used,
    whatever the areas of the spans.  Its material is the one given, a
    [MeshBasicMaterial] if none is given. *)
Theorem unhighlighted_helper_one_color p hf colors :
  let this := HeightfieldHelper_new p in
  p_highlightWalkable p <> Some true ->
  instanceColor (buildMesh this hf) = Some colors ->
  Forall (fun c => c = Some {| representation :=
                                 default (NamedColor "blue")
                                   (p_defaultColor p) |}) colors /\
  im_material (buildMesh this hf) = default MeshBasicMaterial (p_material p).
Proof.
  intros this Hoff Hcolors.
  destruct (buildMesh_spec this hf) as (_ & Hc & _ & _ & Hmat & _).
  split; [| exact Hmat].
  rewrite Hc in Hcolors.
  assert (Hall : colors
            = map (fun b => Some (colorOf this b)) (collectBoxes this hf)).
  { destruct (collectBoxes this hf); [discriminate|].
    injection Hcolors as <-. reflexivity. }
  rewrite Hall.
  rewrite (collectBoxes_spans this hf (fun b => Some (colorOf this b))
             (fun sp => Some (spanColor this sp))) by reflexivity.
  apply Forall_fmap, Forall_true. intros sp. cbn. unfold spanColor.
  subst this. cbn.
  destruct (p_highlightWalkable p) as [[|]|]; [contradiction| |]; reflexivity.
Qed.

End HeightfieldFacts.

(** * Properties of the bounds of [NavMeshCreateParams] *)

Section CreateParamsFacts.

Context {num : Type} {NO : NumOps num} (C : RawCreateParams num).

(** X13. Over a native object whose bounds accessors behave like a store
    ([get_bmin(i)] after [set_bmin(i, v)] yields what the object stores for
    [v], and leaves the other slots and the other bound alone),
    [setBoundsMin] followed by [boundsMin] gives back the three values
    handed in, as stored, and does not change [boundsMax]; likewise with the
    two exchanged. *)
Theorem bounds_round_trip (stored : num -> num) (value : list num)
    (this : Params C) :
  BoundsStore C stored ->
  length value = 3%nat ->
  boundsMin C (setBoundsMin C value this) = map stored value /\
  boundsMax C (setBoundsMax C value this) = map stored value /\
  boundsMax C (setBoundsMin C value this) = boundsMax C this /\
  boundsMin C (setBoundsMax C value this) = boundsMin C this.
Proof.
  intros [Hmm Hmo HMM HMo HmM HMm] Hlen.
  destruct value as [|a [|b [|c [|d value]]]]; try discriminate Hlen.
  unfold boundsMin, boundsMax, setBoundsMin, setBoundsMax, array, get.
  cbn [seq map nth].
  repeat split.
  - rewrite Hmo, Hmo, Hmm by lia. rewrite Hmo, Hmm by lia. rewrite Hmm.
    reflexivity.
  - rewrite HMo, HMo, HMM by lia. rewrite HMo, HMM by lia. rewrite HMM.
    reflexivity.
  - rewrite !HMm. reflexivity.
  - rewrite !HmM. reflexivity.
Qed.

End CreateParamsFacts.

(** * The further properties on the flat mesh, the small heightfield and the
      bounds store *)

Section Examples.

Import Flat Terrace.

Lemma unpaired {A B} (p : A * B) a b : p = (a, b) -> a = p.1 /\ b = p.2.
Proof. intros ->. split; reflexivity. Qed.

Lemma tripled {A B C D} (p : A * B * C * D) :
  p = (p.1.1.1, p.1.1.2, p.1.2, p.2).
Proof. destruct p as [[[? ?] ?] ?]; reflexivity. Qed.

(** The default filter of [query] reads [0xffff] and [0], lets polygon flags
    [1] pass, and is the filter the native nearest-polygon search is called
    with when the options name none. *)
Lemma default_filter_includes_all_flat :
  run module (get_includeFlags module (defaultFilter query)) w1 = 0xffff /\
  run module (get_excludeFlags module (defaultFilter query)) w1 = 0 /\
  passFilter (filterAt module w1 (raw (defaultFilter query))) 1 = true /\
  calls module (exec module (findNearestPoly module query (at_ 5 5) None) w1)
  = calls module w1
    ++ [CallFindNearestPoly [5; 0; 5] [1; 1; 1] (raw (defaultFilter query))].
Proof.
  destruct (default_filter_includes_all module (OfParams module tt None) w0
              query w1 (paired _)) as (Hi & He & Hpass & Hsearch & _).
  split; [exact Hi|]. split; [exact He|].
  split; [apply Hpass; lia|].
  destruct (Hsearch (at_ 5 5) None eq_refl) as ((build & Hnear) & _).
  unfold exec. rewrite Hnear. reflexivity.
Defined.

(** Setting the cost of area 3 of the default filter to 7: area 3 reads 7,
    area 4 reads 1 as before, and the flags are as they were. *)
Lemma setAreaCost_returns_nothing_flat :
  let f := defaultFilter query in
  let w' := exec module (setAreaCost module f 3 7) w1 in
  run module (setAreaCost module f 3 7) w1 = tt /\
  run module (getAreaCost module f 3) w' = 7 /\
  run module (getAreaCost module f 4) w' = 1 /\
  run module (get_includeFlags module f) w' = 0xffff /\
  run module (get_excludeFlags module f) w' = 0.
Proof.
  intros f w'.
  destruct (setAreaCost_returns_nothing mesh f 3 7 w1) as (Hnone & Hin & _).
  destruct (Hin ltac:(lia)) as (Hread & Hother & Hinc & Hexc).
  split; [exact Hnone|].
  split; [etransitivity; [exact Hread | vm_compute; reflexivity]|].
  split; [etransitivity; [exact (Hother 4 ltac:(lia)) | vm_compute; reflexivity]
         |].
  split; [etransitivity; [exact Hinc | vm_compute; reflexivity]|].
  etransitivity; [exact Hexc | vm_compute; reflexivity].
Defined.

(** With the numbers of the program: setting the cost of area 64 of a new
    default filter to 7 returns nothing, as for any id.  The write is taken:
    area 64 then reads 7, and the include flags, [0xffff] before, read [0]
    and the exclude flags, [0] before, read [16608].  Before the write area
    64, never set, does not read 1. *)
Lemma setAreaCost_accepts_area_64 :
  let f := defaultFilter Doubles.query in
  let seven := Doubles.ofZ 7 in
  let w' :=
    exec Doubles.module (setAreaCost Doubles.module f 64 seven) Doubles.w1 in
  run Doubles.module (setAreaCost Doubles.module f 64 seven) Doubles.w1 = tt /\
  run Doubles.module (getAreaCost Doubles.module f 64) w' = seven /\
  run Doubles.module (get_includeFlags Doubles.module f) Doubles.w1 = 0xffff /\
  run Doubles.module (get_includeFlags Doubles.module f) w' = 0 /\
  run Doubles.module (get_excludeFlags Doubles.module f) Doubles.w1 = 0 /\
  run Doubles.module (get_excludeFlags Doubles.module f) w' = 16608 /\
  run Doubles.module (getAreaCost Doubles.module f 64) Doubles.w1
  <> Doubles.ofZ 1.
Proof.
  repeat split; try (vm_compute; reflexivity).
  vm_compute. discriminate.
Qed.

(** With room for two corridor polygons only, the corridor ends in polygon
    2, the end handed to string pulling is the closest point on it that the
    native call returned, and the path runs from the start to that point. *)
Lemma computePath_success_shape_flat :
  let o := Some {| cp_filter := None; cp_maxPathPolys := Some 2%nat;
                   cp_maxStraightPathPoints := None |} in
  let out := computePath module query (at_ 5 5) (at_ 15 15) o w1 in
  path module out.1 = [at_ 5 5; at_ 15 10] /\
  exists (r3 : Result module PolyPath) (w3 w4 : World module)
         (closestEnd : Vector3 Z) (r5 : Result module (StraightPath Z)),
    polys (payload r3) = [1; 2] /\
    closestEnd
    = (raw_closestPointOnPoly module 2 [15; 0; 15] (engine module w3)).1.1.2 /\
    closestEnd = at_ 15 10 /\
    straightPathCount (payload r5) = 2%nat /\
    length (path module out.1) = straightPathCount (payload r5) /\
    path module out.1 !! 1%nat
    = Some {| x := get 0 (straightPath (payload r5)) 3;
              y := get 0 (straightPath (payload r5)) 4;
              z := get 0 (straightPath (payload r5)) 5 |} /\
    calls module out.2
    = calls module w4
      ++ [CallFindStraightPath [5; 0; 5] [15; 0; 10] [1; 2] 256%nat 0].
Proof.
  intros o out. split; [vm_compute; reflexivity|].
  destruct (computePath_success_shape module query (at_ 5 5) (at_ 15 15) o w1
              out.1 out.2 (paired _) eq_refl)
    as (r1 & w1' & r2 & w2 & r3 & w3 & closestEnd & w4 & r5 & H1 & H2 & H3
        & _ & H5 & Hlen & Hpts & Hend & _ & _ & Hcount & Hcalls).
  cbv zeta in Hend, Hcount, Hcalls.
  destruct (unpaired _ _ _ H1) as [-> ->].
  destruct (unpaired _ _ _ H2) as [-> ->].
  destruct (unpaired _ _ _ H3) as [E3 Ew3].
  destruct (unpaired _ _ _ H5) as [E5 _].
  assert (Hp : polys (payload r3) = [1; 2])
    by (rewrite E3; vm_compute; reflexivity).
  rewrite Hp in Hend, Hcount, Hcalls.
  assert (Hc : closestEnd = at_ 15 10).
  { etransitivity; [exact Hend|]. rewrite Ew3. vm_compute. reflexivity. }
  exists r3, w3, w4, closestEnd, r5.
  split; [exact Hp|].
  split; [exact Hend|].
  split; [exact Hc|].
  rewrite Hc in Hcount, Hcalls.
  assert (Hn : straightPathCount (payload r5) = 2%nat).
  { rewrite <- Hlen. vm_compute. reflexivity. }
  split; [exact Hn|].
  split; [exact Hlen|].
  split; [apply (Hpts 1%nat); rewrite Hn; lia|].
  exact Hcalls.
Defined.

(** With no room for any corridor polygon the corridor search from quad
    (0,0) to quad (1,1) succeeds with an empty corridor, and [computePath]
    stops there. *)
Lemma computePath_empty_corridor_flat :
  let o := Some {| cp_filter := None; cp_maxPathPolys := Some 0%nat;
                   cp_maxStraightPathPoints := None |} in
  exists w3,
    computePath module query (at_ 5 5) (at_ 15 15) o w1
    = (failed module "no polygon path found" None, w3) /\
    calls module w3
    = [CallFindNearestPoly [5; 0; 5] [1; 1; 1] 0%nat;
       CallFindNearestPoly [15; 0; 15] [1; 1; 1] 0%nat;
       CallFindPath 1 4 [5; 0; 5] [15; 0; 15] 0%nat 0%nat].
Proof.
  intros o.
  pose proof (computePath_empty_corridor module query (at_ 5 5) (at_ 15 15)
                o w1) as H.
  cbv zeta in H. destruct H as [_ H].
  eexists. split.
  - apply H. repeat split; vm_compute; reflexivity.
  - vm_compute. reflexivity.
Defined.

(** From quad (0,0) to quad (1,1) with room for two corridor polygons only:
    the corridor stops at quad (1,0), and the five native calls are there,
    string pulling running to the closest point on quad (1,0). *)
Lemma computePath_success_calls_flat :
  let o := Some {| cp_filter := None; cp_maxPathPolys := Some 2%nat;
                   cp_maxStraightPathPoints := None |} in
  let r := computePath module query (at_ 5 5) (at_ 15 15) o w1 in
  computed module r.1 = true /\
  calls module r.2
  = [CallFindNearestPoly [5; 0; 5] [1; 1; 1] 0%nat;
     CallFindNearestPoly [15; 0; 15] [1; 1; 1] 0%nat;
     CallFindPath 1 4 [5; 0; 5] [15; 0; 15] 0%nat 2%nat;
     CallClosestPointOnPoly 2 [15; 0; 15];
     CallFindStraightPath [5; 0; 5] [15; 0; 10] [1; 2] 256%nat 0].
Proof.
  intros o r.
  split; [vm_compute; reflexivity|].
  pose proof (computePath_success_calls module query (at_ 5 5) (at_ 15 15) o
                w1 r.1 r.2 (paired _) eq_refl) as H.
  cbv zeta in H. destruct H as [_ H].
  etransitivity; [exact H | vm_compute; reflexivity].
Defined.

(** The box of half extents 1 around (5, 5) overlaps quad (0,0) only. *)
Lemma range_results_are_native_prefix_flat :
  polyRefs (payload (run module
                       (queryPolygons module query (at_ 5 5) (at_ 1 1) None)
                       w1)) = [1] /\
  visited (payload (run module
                      (moveAlongSurface module query 1 (at_ 5 5) (at_ 8 8)
                         None) w1)) = [1].
Proof.
  destruct (range_results_are_native_prefix module query None w1)
    as (Hq & _ & Hm).
  split.
  - rewrite (Hq (at_ 5 5) (at_ 1 1) _ _ _ _ (tripled _)).
    + vm_compute. reflexivity.
    + vm_compute. lia.
  - rewrite (Hm 1 (at_ 5 5) (at_ 8 8) _ _ _ _ (tripled _)).
    vm_compute. reflexivity.
Defined.

(** A second query object constructed after [query] has another default
    filter, and [query]'s is as it was. *)
Lemma NavMeshQuery_new_own_filter_flat :
  let second := NavMeshQuery_new module (OfParams module tt None) w1 in
  (raw (defaultFilter query) ∉ dom (filters module w0)) /\
  (forall h, h ∈ dom (filters module w0) ->
             filters module w1 !! h = filters module w0 !! h) /\
  raw (defaultFilter second.1) <> raw (defaultFilter query) /\
  filters module second.2 !! raw (defaultFilter query)
  = filters module w1 !! raw (defaultFilter query).
Proof.
  intros second.
  apply (NavMeshQuery_new_own_filter module (OfParams module tt None)
           (OfParams module tt None) w0 query w1 second.1 second.2);
    apply paired.
Defined.

(** The small heightfield has three spans, and the helper sets three
    colours. *)
Lemma buildMesh_one_instance_per_span_terrace :
  im_count (buildMesh helper field) = 3%nat /\
  length [Some blue; Some blue; Some blue]
  = im_count (buildMesh helper field) /\
  Forall is_Some [Some blue; Some blue; Some blue].
Proof.
  destruct (buildMesh_one_instance_per_span helper field)
    as (Hcount & _ & _ & Hcolors & _).
  split; [rewrite Hcount; reflexivity|].
  apply Hcolors. reflexivity.
Defined.

(** The three boxes of the small heightfield: the two spans of cell (0,0)
    sit above one another over the middle of the cell, the span of cell
    (1,0) over the middle of the next cell. *)
Lemma buildMesh_positions_terrace :
  instanceMatrix (buildMesh helper field)
  = [Some (1, 1, 1); Some (1, 5, 1); Some (3, 2, 1)].
Proof. rewrite (buildMesh_positions helper field). reflexivity. Defined.

(** The helper of the small heightfield is constructed with the heightfields
    only: its three boxes are blue, the one of area 0 and the two others. *)
Lemma unhighlighted_helper_one_color_terrace :
  instanceColor (buildMesh helper field)
  = Some [Some blue; Some blue; Some blue] /\
  Forall (fun c => c = Some blue) [Some blue; Some blue; Some blue] /\
  im_material (buildMesh helper field) = MeshBasicMaterial.
Proof.
  split; [reflexivity|].
  apply (unhighlighted_helper_one_color params field
           [Some blue; Some blue; Some blue]).
  - discriminate.
  - reflexivity.
Defined.

Lemma store_keeps : BoundsStore store (fun v => v).
Proof.
  split; intros; cbn; unfold setAt; try reflexivity.
  - rewrite Nat.eqb_refl. reflexivity.
  - destruct (Nat.eqb_spec j i); [congruence | reflexivity].
  - rewrite Nat.eqb_refl. reflexivity.
  - destruct (Nat.eqb_spec j i); [congruence | reflexivity].
Qed.

(** Bounds set on the store read back, and leave the other bound alone. *)
Lemma bounds_round_trip_store :
  boundsMin store (setBoundsMin store [1; 2; 3] unset) = [1; 2; 3] /\
  boundsMax store (setBoundsMax store [1; 2; 3] unset) = [1; 2; 3] /\
  boundsMax store (setBoundsMin store [1; 2; 3] unset) = [0; 0; 0] /\
  boundsMin store (setBoundsMax store [1; 2; 3] unset) = [0; 0; 0].
Proof.
  apply (bounds_round_trip store (fun v => v) [1; 2; 3] unset store_keeps).
  reflexivity.
Defined.

End Examples.
